(** * download_from_google_Drive.py: name/type resolution and the folder walk

    A shallow embedding of [src/download_from_google_Drive.py] and the
    properties of it stated by the specification.

    Conventions.
    - A Python [str] is a [string]: the UTF-8 bytes of the text.  Every
      character the script looks for (the fifteen characters illegal on
      Windows, the apostrophe, the dot and the two path separators) is ASCII,
      and an ASCII byte never occurs inside the encoding of another code point,
      so searching and replacing these bytes is searching and replacing the
      characters.
    - A Python [int] is a [Z].
    - A Python [dict] used as a map ([metadata['exportLinks']]) is a
      [gmap string string]; [k in d] asks whether [d !! k] is some value. *)

From Stdlib Require Import ZArith Ascii DecimalString DecimalPos.
From stdpp Require Import gmap strings list.

Local Open Scope Z_scope.

(** ** Python string primitives *)

Module Py.

(** [has c s]: the test [c in s] for a one-character [c]. *)
Fixpoint has (c : ascii) (s : string) : bool :=
  match s with
  | EmptyString => false
  | String a s' => Ascii.eqb a c || has c s'
  end.

(** [replace old new s]: [s.replace(old, new)] for a one-character [old];
    every call of [str.replace] in the script has such a pattern. *)
Fixpoint replace (old : ascii) (new : string) (s : string) : string :=
  match s with
  | EmptyString => EmptyString
  | String a s' =>
      if Ascii.eqb a old then new +:+ replace old new s'
      else String a (replace old new s')
  end.

(** [str i]: [str(i)] on an [int], the decimal numeral with a leading
    minus sign for negative numbers. *)
Definition str (i : Z) : string := NilZero.string_of_int (Z.to_int i).

(** [smap f s] applies [f] to every character; it is not a primitive of the
    script, only the shape its chains of [replace] reduce to. *)
Fixpoint smap (f : ascii → ascii) (s : string) : string :=
  match s with
  | EmptyString => EmptyString
  | String a s' => String (f a) (smap f s')
  end.

(** [rfind c s]: [s.rfind(c)], the highest index of [c] in [s], or [-1]. *)
Fixpoint rfind (c : ascii) (s : string) : Z :=
  match s with
  | EmptyString => -1
  | String a s' =>
      let r := rfind c s' in
      if 0 <=? r then r + 1 else if Ascii.eqb a c then 0 else -1
  end.

(** [take n s] is the slice [s[:n]] and [drop n s] the slice [s[n:]],
    for [0 <= n]. *)
Fixpoint take (n : nat) (s : string) : string :=
  match n, s with
  | S n', String a s' => String a (take n' s')
  | _, _ => EmptyString
  end.

Fixpoint drop (n : nat) (s : string) : string :=
  match n, s with
  | S n', String _ s' => drop n' s'
  | _, _ => s
  end.

(** [at_ i s] is the slice [s[i:i+1]]: one character, or the empty string
    past the end. *)
Definition at_ (i : Z) (s : string) : string := take 1 (drop (Z.to_nat i) s).

End Py.

(** ** makePcFileName *)

(** The characters that are not legal in Windows file and folder names,
    in the order in which [makePcFileName] replaces them:
    [~ # % & * { } / \ : < > ? |] and the double quote (code 34). *)
Definition illegal : list ascii :=
  [ "~"; "#"; "%"; "&"; "*"; "{"; "}"; "/"; "\"; ":"; "<"; ">"; "?"; "|";
    ascii_of_nat 34 ]%char.

(** [clean s]: [s] contains none of the illegal characters. *)
Definition clean (s : string) : bool :=
  forallb (λ c, negb (Py.has c s)) illegal.

(** [makePcFileName(inFilename, traceFlag)]: fifteen successive
    [replace(c, '_')]; [traceFlag] is not used by the body. *)
Definition makePcFileName (inFilename : string) (traceFlag : bool) : string :=
  let retval := Py.replace "~" "_" inFilename in
  let retval := Py.replace "#" "_" retval in
  let retval := Py.replace "%" "_" retval in
  let retval := Py.replace "&" "_" retval in
  let retval := Py.replace "*" "_" retval in
  let retval := Py.replace "{" "_" retval in
  let retval := Py.replace "}" "_" retval in
  let retval := Py.replace "/" "_" retval in
  let retval := Py.replace "\" "_" retval in
  let retval := Py.replace ":" "_" retval in
  let retval := Py.replace "<" "_" retval in
  let retval := Py.replace ">" "_" retval in
  let retval := Py.replace "?" "_" retval in
  let retval := Py.replace "|" "_" retval in
  let retval := Py.replace (ascii_of_nat 34) "_" retval in
  retval.

(** ** os.path.splitext

    [splitext] is imported from the Python standard library.  Both flavours
    of [os.path] delegate to [genericpath._splitext(p, sep, altsep, extsep)]:
    [posixpath] with [sep = '/'] and no [altsep], [ntpath] (the script is
    meant for Windows) with [sep = '\'] and [altsep = '/'].  The definition
    below follows that function statement by statement. *)

Inductive flavour := posix | nt.

Definition sep (os : flavour) : ascii :=
  match os with posix => "/"%char | nt => "\"%char end.

Definition altsep (os : flavour) : option ascii :=
  match os with posix => None | nt => Some "/"%char end.

Definition extsep : ascii := "."%char.

(** The [while filenameIndex < dotIndex] loop of [_splitext], run for at most
    [n] iterations: [true] when it finds a character other than the dot (the
    early [return] of the split), [false] when it runs to its end. *)
Fixpoint splitext_scan (n : nat) (p : string) (filenameIndex : Z) : bool :=
  match n with
  | O => false
  | S n' =>
      if negb (String.eqb (Py.at_ filenameIndex p) (String extsep EmptyString))
      then true
      else splitext_scan n' p (filenameIndex + 1)
  end.

Definition splitext (os : flavour) (p : string) : string * string :=
  let sepIndex := Py.rfind (sep os) p in
  let sepIndex :=
    match altsep os with
    | Some a => Z.max sepIndex (Py.rfind a p)
    | None => sepIndex
    end in
  let dotIndex := Py.rfind extsep p in
  if (sepIndex <? dotIndex)
     && splitext_scan (Z.to_nat (dotIndex - (sepIndex + 1))) p (sepIndex + 1)
  then (Py.take (Z.to_nat dotIndex) p, Py.drop (Z.to_nat dotIndex) p)
  else (p, Py.take 0 p).

(** ** getDownloadFileName *)

Definition getDownloadFileName (os : flavour)
    (hostRootDir driveName suffix : string) (i : Z) (traceFlag : bool)
  : string :=
  let '(fileName, extension) := splitext os driveName in
  let extension := if String.eqb extension "" then suffix else extension in
  let retval := hostRootDir +:+ "/" +:+ makePcFileName fileName traceFlag in
  let retval := if 0 <? i then retval +:+ "_" +:+ Py.str i else retval in
  let retval := retval +:+ extension in
  retval.

(** ** Drive files and getMimeTypeAndSuffix *)

(** The metadata of a Drive file, with the four keys the script reads.
    [exportLinks] is present only for the editable document types. *)
Module DriveFile.
Record t := mk {
  title : string;
  id : string;
  mimeType : string;
  exportLinks : option (gmap string string)
}.
End DriveFile.

(** The dictionary [{'mimeType': ..., 'suffix': ...}] returned by
    [getMimeTypeAndSuffix]. *)
Module Mtas.
Record t := mk { mimeType : string; suffix : string }.
Definition set_mimeType (v : string) (r : t) : t := mk v (suffix r).
Definition set_suffix (v : string) (r : t) : t := mk (mimeType r) v.
End Mtas.

(** [k in d] for a dictionary [d]. *)
Definition key_in (k : string) (d : gmap string string) : bool :=
  bool_decide (is_Some (d !! k)).

Definition getMimeTypeAndSuffix (driveFile : DriveFile.t) (traceFlag : bool)
  : Mtas.t :=
  let retval := Mtas.mk "" "" in
  let metadata := driveFile in
  match DriveFile.exportLinks metadata with
  | None => Mtas.set_mimeType (DriveFile.mimeType metadata) retval
  | Some links =>
    if key_in "application/vnd.openxmlformats-officedocument.wordprocessingml.document" links then
      Mtas.set_suffix ".docx" (Mtas.set_mimeType
        "application/vnd.openxmlformats-officedocument.wordprocessingml.document" retval)
    else if key_in "application/vnd.oasis.opendocument.text" links then
      Mtas.set_suffix ".odt" (Mtas.set_mimeType
        "application/vnd.oasis.opendocument.text" retval)
    else if key_in "application/rtf" links then
      Mtas.set_suffix ".rtf" (Mtas.set_mimeType "application/rtf" retval)
    else if key_in "application/vnd.openxmlformats-officedocument.spreadsheetml.sheet" links then
      Mtas.set_suffix ".xlsx" (Mtas.set_mimeType
        "application/vnd.openxmlformats-officedocument.spreadsheetml.sheet" retval)
    else if key_in "application/x-vnd.oasis.opendocument.spreadsheet" links then
      Mtas.set_suffix ".ods" (Mtas.set_mimeType
        "application/x-vnd.oasis.opendocument.spreadsheet" retval)
    else if key_in "text/csv" links then
      Mtas.set_suffix ".csv" (Mtas.set_mimeType "text/csv" retval)
    else if key_in "text/tsv" links then
      Mtas.set_suffix ".tsv" (Mtas.set_mimeType "text/tsv" retval)
    else if key_in "application/vnd.openxmlformats-officedocument.presentationml.presentation" links then
      Mtas.set_suffix ".pptx" (Mtas.set_mimeType
        "application/vnd.openxmlformats-officedocument.presentationml.presentation" retval)
    else if key_in "application/vnd.oasis.opendocument.presentation" links then
      Mtas.set_suffix ".odp" (Mtas.set_mimeType
        "application/vnd.oasis.opendocument.presentation" retval)
    else if key_in "image/jpeg" links then
      Mtas.set_suffix ".jpg" (Mtas.set_mimeType "image/jpeg" retval)
    else if key_in "image/png" links then
      Mtas.set_suffix ".png" (Mtas.set_mimeType "image/png" retval)
    else if key_in "image/svg" links then
      Mtas.set_suffix ".svg" (Mtas.set_mimeType "image/svg" retval)
    else
      Mtas.set_suffix ".pdf" (Mtas.set_mimeType "application/pdf" retval)
  end.

(** The priority order as the specification lists it: the export MIME type to
    look for and the suffix it implies, most preferred first. *)
Definition priority : list (string * string) :=
  [ ("application/vnd.openxmlformats-officedocument.wordprocessingml.document", ".docx");
    ("application/vnd.oasis.opendocument.text", ".odt");
    ("application/rtf", ".rtf");
    ("application/vnd.openxmlformats-officedocument.spreadsheetml.sheet", ".xlsx");
    ("application/x-vnd.oasis.opendocument.spreadsheet", ".ods");
    ("text/csv", ".csv");
    ("text/tsv", ".tsv");
    ("application/vnd.openxmlformats-officedocument.presentationml.presentation", ".pptx");
    ("application/vnd.oasis.opendocument.presentation", ".odp");
    ("image/jpeg", ".jpg");
    ("image/png", ".png");
    ("image/svg", ".svg") ].

(** [resolve_spec links]: the first entry of [priority] whose key is in
    [links] wins; the PDF export is the fallback. *)
Fixpoint first_match (table : list (string * string))
    (links : gmap string string) : Mtas.t :=
  match table with
  | [] => Mtas.mk "application/pdf" ".pdf"
  | (mime, sfx) :: table' =>
      if key_in mime links then Mtas.mk mime sfx else first_match table' links
  end.

Definition resolve_spec (links : gmap string string) : Mtas.t :=
  first_match priority links.

(** ** The outside world

    The script talks to four collaborators: the session bootstrapper
    ([GoogleAuth()], [gauth.LocalWebserverAuth()], [GoogleDrive(gauth)]), the
    Drive session ([drive.ListFile(...).GetList()] and
    [driveFile.GetContentFile]), the host file system ([os.makedirs]) and
    standard output ([print]).  Every such call is recorded as an [event];
    the history of events is the state the script threads through.

    - The remote store is a snapshot: [ListFile] answers a query string and
      does not change during a run.
    - [os.makedirs] and [GetContentFile] may raise; whether a call succeeds is
      decided by the world as a function of everything that happened before
      ([makedirs_ok], [GetContentFile_ok]), so a call can fail for any
      reason.
    - [GoogleAuth()] and [gauth.LocalWebserverAuth()] may raise in the same
      way ([GoogleAuth_ok], [LocalWebserverAuth_ok]); [GoogleDrive(gauth)]
      only wraps the session in a handle and returns.
    - A listing and a [print] are taken to return normally. *)

Inductive event :=
  | EPrint (line : string)
  | EListFile (q : string)
  | EMakedirs (path : string) (ok : bool)
  | EGetContentFile (driveFile : DriveFile.t) (filename mimetype : string)
                    (ok : bool)
  | EGoogleAuth (ok : bool)
  | ELocalWebserverAuth (ok : bool)
  | EGoogleDrive.

Record world := {
  ListFile : string → list DriveFile.t;
  makedirs_ok : list event → string → bool;
  GetContentFile_ok :
    list event → DriveFile.t → string → string → bool
}.

(** The session bootstrapper: whether the two calls of the authentication
    handshake succeed, given what happened before. *)
Record bootstrapper := {
  GoogleAuth_ok : list event → bool;
  LocalWebserverAuth_ok : list event → bool
}.

(** How a run of a piece of the script ends: normally, with an exception
    that nothing caught, or cut off by the bound on the recursion depth. *)
Inductive status := Done | Raised | OutOfFuel.

(** A statement of the script: from the history so far to the history after
    it and the way it ended. *)
Definition run : Type := list event → list event * status.

Definition skip : run := λ h, (h, Done).

Definition emit (e : event) : run := λ h, (h ++ [e], Done).

Definition seq (a b : run) : run :=
  λ h, match a h with
       | (h', Done) => b h'
       | r => r
       end.

Notation "a >> b" := (seq a b) (at level 65, right associativity).

Definition when (c : bool) (a : run) : run := if c then a else skip.

Fixpoint seq_all (l : list run) : run :=
  match l with
  | [] => skip
  | a :: l' => a >> seq_all l'
  end.

Definition print (line : string) : run := emit (EPrint line).

Definition tab : string := String (ascii_of_nat 9) EmptyString.

Definition folder_mimeType : string := "application/vnd.google-apps.folder".
Definition form_mimeType : string := "application/vnd.google-apps.form".

Section Walker.
Context (os : flavour) (w : world) (traceFlag : bool).

(** [drive.ListFile({'q': q}).GetList()] *)
Definition GetList (q : string) (k : list DriveFile.t → run) : run :=
  emit (EListFile q) >> k (ListFile w q).

(** [os.makedirs(path)]: an exception here is not caught anywhere. *)
Definition os_makedirs (path : string) : run :=
  λ h, let ok := makedirs_ok w h path in
       (h ++ [EMakedirs path ok], if ok then Done else Raised).

(** [try: driveFile.GetContentFile(filename, mimetype); body
     except: handler] *)
Definition try_GetContentFile (driveFile : DriveFile.t)
    (filename mimetype : string) (body handler : run) : run :=
  λ h, let ok := GetContentFile_ok w h driveFile filename mimetype in
       let h' := h ++ [EGetContentFile driveFile filename mimetype ok] in
       if ok then body h' else handler h'.

(** The recursive call [downloadAllFilesInFolder(newFolderName, id, ...)]. *)
Variable self : string → string → run.

(** The body of [for driveFile in driveFiles], up to [i = i + 1]. *)
Definition visit (hostRootDir driveName : string)
    (driveFile : DriveFile.t) (i : Z) : run :=
  if String.eqb (DriveFile.mimeType driveFile) folder_mimeType then
    let pcFolderName := makePcFileName (DriveFile.title driveFile) traceFlag in
    let newFolderName := hostRootDir +:+ "/" +:+ pcFolderName in
    os_makedirs newFolderName >>
    when traceFlag
      (print ("Recursive call to download files to " +:+ newFolderName) >>
       print (tab +:+ "Drive id = " +:+ DriveFile.id driveFile)) >>
    self newFolderName (DriveFile.id driveFile)
  else if String.eqb (DriveFile.mimeType driveFile) form_mimeType then
    print ("*** Google Drive does not support export/download of Google Forms: "
           +:+ DriveFile.title driveFile) >>
    print (tab +:+ "Drive id = " +:+ DriveFile.id driveFile)
  else
    let mtas := getMimeTypeAndSuffix driveFile traceFlag in
    let mimeType := Mtas.mimeType mtas in
    let suffix := Mtas.suffix mtas in
    let downloadFileName :=
      getDownloadFileName os hostRootDir driveName suffix i traceFlag in
    try_GetContentFile driveFile downloadFileName mimeType
      (when traceFlag
         (print ("Downloaded " +:+ DriveFile.title driveFile +:+ " to "
                 +:+ downloadFileName) >>
          print (tab +:+ "Drive id = " +:+ DriveFile.id driveFile)))
      (print ("*** FAILED to download " +:+ DriveFile.title driveFile
              +:+ " to " +:+ downloadFileName) >>
       print (tab +:+ "Drive id = " +:+ DriveFile.id driveFile)).

(** [i = 0; for driveFile in driveFiles: ...; i = i + 1] *)
Fixpoint for_driveFiles (hostRootDir driveName : string)
    (driveFiles : list DriveFile.t) (i : Z) : run :=
  match driveFiles with
  | [] => skip
  | driveFile :: rest =>
      visit hostRootDir driveName driveFile i >>
      for_driveFiles hostRootDir driveName rest (i + 1)
  end.

(** The body of [for f in file_list]. *)
Definition for_f (hostRootDir : string) (f : DriveFile.t) : run :=
  when traceFlag
    (print ("Processing " +:+ DriveFile.title f) >>
     print (tab +:+ "Drive id = " +:+ DriveFile.id f)) >>
  let driveName := DriveFile.title f in
  let driveNameForQuery := Py.replace "'" "\'" driveName in
  let queryStr2 := "title='" +:+ driveNameForQuery +:+ "'" in
  GetList queryStr2 (λ driveFiles,
    for_driveFiles hostRootDir driveName driveFiles 0).

Fixpoint for_file_list (hostRootDir : string)
    (file_list : list DriveFile.t) : run :=
  match file_list with
  | [] => skip
  | f :: rest => for_f hostRootDir f >> for_file_list hostRootDir rest
  end.

End Walker.

(** [downloadAllFilesInFolder(hostRootDir, driveRootDir, drive, traceFlag)].
    The recursion follows the folders of the remote store, so it is bounded
    here by [fuel], the number of nested calls allowed. *)
Fixpoint downloadAllFilesInFolder (os : flavour) (w : world) (fuel : nat)
    (hostRootDir driveRootDir : string) (traceFlag : bool) : run :=
  match fuel with
  | O => λ h, (h, OutOfFuel)
  | S fuel' =>
      GetList w ("'" +:+ driveRootDir +:+ "' in parents and trashed=false")
        (λ file_list,
           for_file_list os w traceFlag
             (λ newFolderName driveFolderId,
                downloadAllFilesInFolder os w fuel' newFolderName
                  driveFolderId traceFlag)
             hostRootDir file_list)
  end.

(** [gauth = GoogleAuth()]: an exception here is not caught anywhere. *)
Definition GoogleAuth (b : bootstrapper) : run :=
  λ h, let ok := GoogleAuth_ok b h in
       (h ++ [EGoogleAuth ok], if ok then Done else Raised).

(** [gauth.LocalWebserverAuth()]: an exception here is not caught anywhere. *)
Definition LocalWebserverAuth (b : bootstrapper) : run :=
  λ h, let ok := LocalWebserverAuth_ok b h in
       (h ++ [ELocalWebserverAuth ok], if ok then Done else Raised).

(** [drive = GoogleDrive(gauth)]: the handle the walk receives; in the model
    its answers are those of the world [w]. *)
Definition GoogleDrive : run := emit EGoogleDrive.

(** [downloadEverythingFromDrive(hostRootDir, traceFlag)]; [traceFlag] is
    [False] when the caller leaves it out. *)
Definition downloadEverythingFromDrive (os : flavour) (b : bootstrapper)
    (w : world) (fuel : nat) (hostRootDir : string) (traceFlag : bool)
  : run :=
  GoogleAuth b >>
  LocalWebserverAuth b >>
  os_makedirs w hostRootDir >>
  GoogleDrive >>
  downloadAllFilesInFolder os w fuel hostRootDir "root" traceFlag.

(** ** A reference remote store and host *)

(** Modelled from the spec: the remote store session of its section 6, an
    external collaborator whose code is not part of the script.  A store is
    the list of its entries in enumeration order, each with the ids of its
    parents and its trashed flag; [list_files] answers the two query forms
    the script builds, ['<id>' in parents and trashed=false] and
    [title='<escaped title>'].  The walk itself takes any [world]; this one
    serves to run it on concrete inputs. *)
Module Store.

Record entry := mk {
  file : DriveFile.t;
  parents : list string;
  trashed : bool
}.

Fixpoint strip_prefix (pre s : string) : option string :=
  match pre, s with
  | EmptyString, _ => Some s
  | String a pre', String b s' =>
      if Ascii.eqb a b then strip_prefix pre' s' else None
  | String _ _, EmptyString => None
  end.

Definition strip_suffix (suf s : string) : option string :=
  let n := (String.length s - String.length suf)%nat in
  if (String.length suf <=? String.length s)%nat
     && String.eqb (Py.drop n s) suf
  then Some (Py.take n s) else None.

(** In a query literal a backslash quotes the next character. *)
Fixpoint unescape (s : string) : string :=
  match s with
  | EmptyString => EmptyString
  | String a s' =>
      if Ascii.eqb a "\" then
        match s' with
        | EmptyString => EmptyString
        | String b s'' => String b (unescape s'')
        end
      else String a (unescape s')
  end.

Definition list_files (st : list entry) (q : string) : list DriveFile.t :=
  match strip_prefix "title='" q with
  | Some r =>
      match strip_suffix "'" r with
      | Some t =>
          map file
            (List.filter
               (λ e, String.eqb (DriveFile.title (file e)) (unescape t)) st)
      | None => []
      end
  | None =>
      match strip_prefix "'" q with
      | Some r =>
          match strip_suffix "' in parents and trashed=false" r with
          | Some pid =>
              map file
                (List.filter
                   (λ e, existsb (String.eqb pid) (parents e)
                         && negb (trashed e)) st)
          | None => []
          end
      | None => []
      end
  end.

(** A path exists on the host once a directory was made there or a file
    was downloaded there. *)
Definition created (path : string) (e : event) : bool :=
  match e with
  | EMakedirs p true => String.eqb p path
  | EGetContentFile _ p _ true => String.eqb p path
  | _ => false
  end.

(** The world over store [st] in which the downloads of the entries whose
    id is in [failing] raise, and [os.makedirs] raises on an existing
    path. *)
Definition world_of (st : list entry) (failing : list string) : world :=
  {| ListFile := list_files st;
     makedirs_ok := λ h path, negb (existsb (created path) h);
     GetContentFile_ok := λ _ driveFile _ _,
       negb (existsb (String.eqb (DriveFile.id driveFile)) failing) |}.

End Store.

(** What the specification says of one character: an illegal character
    becomes an underscore, any other character stays. *)
Definition sanitize_char (a : ascii) : ascii :=
  if existsb (Ascii.eqb a) illegal then "_"%char else a.

(** ** Sample inputs *)
Module Sample.

Definition docx_mime : string :=
  "application/vnd.openxmlformats-officedocument.wordprocessingml.document".

(** A Google Doc: exportable as docx, odt, rtf, pdf, ... *)
Definition doc_links : gmap string string :=
  {[ "application/pdf" := "https://docs.example/export?format=pdf";
     "application/rtf" := "https://docs.example/export?format=rtf";
     docx_mime := "https://docs.example/export?format=docx";
     "application/vnd.oasis.opendocument.text" :=
       "https://docs.example/export?format=odt" ]}.

Definition doc : DriveFile.t :=
  DriveFile.mk "Minutes" "id-doc" "application/vnd.google-apps.document"
    (Some doc_links).

(** A Google Sheet offering only csv and pdf. *)
Definition sheet_links : gmap string string :=
  {[ "application/pdf" := "https://docs.example/export?format=pdf";
     "text/csv" := "https://docs.example/export?format=csv" ]}.

Definition sheet : DriveFile.t :=
  DriveFile.mk "Budget" "id-sheet" "application/vnd.google-apps.spreadsheet"
    (Some sheet_links).

(** A Google Drawing whose export links hold none of the twelve keys. *)
Definition drawing_links : gmap string string :=
  {[ "application/pdf" := "https://docs.example/export?format=pdf";
     "image/svg+xml" := "https://docs.example/export?format=svg" ]}.

Definition drawing : DriveFile.t :=
  DriveFile.mk "Sketch" "id-drawing" "application/vnd.google-apps.drawing"
    (Some drawing_links).

(** An uploaded file with a native byte stream. *)
Definition photo : DriveFile.t :=
  DriveFile.mk "beach.jpeg" "id-photo" "image/jpeg" None.

End Sample.

(** ** The path builder as the specification words it *)

(** [any P s]: some character of [s] satisfies [P]. *)
Fixpoint any (P : ascii → bool) (s : string) : bool :=
  match s with
  | EmptyString => false
  | String a s' => P a || any P s'
  end.

Definition is_dot (a : ascii) : bool := Ascii.eqb a extsep.

Definition is_sep (os : flavour) (a : ascii) : bool :=
  Ascii.eqb a (sep os)
  || match altsep os with Some b => Ascii.eqb a b | None => false end.

(** [last_index P s]: the highest index of a character satisfying [P],
    or [-1]. *)
Fixpoint last_index (P : ascii → bool) (s : string) : Z :=
  match s with
  | EmptyString => -1
  | String a s' =>
      let r := last_index P s' in
      if 0 <=? r then r + 1 else if P a then 0 else -1
  end.

(** [split_last_dot s]: [s] cut in front of its last dot; a string
    without a dot is all base name. *)
Fixpoint split_last_dot (s : string) : string * string :=
  match s with
  | EmptyString => (EmptyString, EmptyString)
  | String a s' =>
      if any is_dot s' then
        let '(base, ext) := split_last_dot s' in (String a base, ext)
      else if is_dot a then (EmptyString, s)
      else (s, EmptyString)
  end.

(** [basename os s]: the last path component of [s], what follows its last
    separator. *)
Fixpoint basename (os : flavour) (s : string) : string :=
  match s with
  | EmptyString => EmptyString
  | String a s' =>
      if any (is_sep os) s' then basename os s'
      else if is_sep os a then s'
      else s
  end.

(** [carries_extension os s]: the last path component of [s] has a dot, and
    in front of its last dot a character that is not a dot. *)
Definition carries_extension (os : flavour) (s : string) : bool :=
  let '(base, ext) := split_last_dot (basename os s) in
  negb (String.eqb ext "") && any (λ a, negb (is_dot a)) base.

(** The index inserted between base name and extension. *)
Definition index_part (i : Z) : string :=
  if 0 <? i then "_" +:+ Py.str i else "".

(** [buildPath_spec]: the title split at its last dot, the extension used
    when there is one and the suffix otherwise. *)
Definition buildPath_spec (rootDir remoteTitle suffix : string) (i : Z)
  : string :=
  let '(base, ext) := split_last_dot remoteTitle in
  rootDir +:+ "/" +:+ makePcFileName base false +:+ index_part i
  +:+ (if String.eqb ext "" then suffix else ext).

(** ** Reading a history *)

(** The query the walk issues for the entries titled [driveName]. *)
Definition title_query (driveName : string) : string :=
  "title='" +:+ Py.replace "'" "\'" driveName +:+ "'".

(** The query the walk issues for the children of [driveRootDir]. *)
Definition children_query (driveRootDir : string) : string :=
  "'" +:+ driveRootDir +:+ "' in parents and trashed=false".

(** The two trace lines the script prints in front of a title group. *)
Definition processing_notice (traceFlag : bool) (f : DriveFile.t) : run :=
  when traceFlag
    (print ("Processing " +:+ DriveFile.title f) >>
     print (tab +:+ "Drive id = " +:+ DriveFile.id f)).

(** [downloads_of i h]: how many times the history [h] has a call of
    [GetContentFile] on the entry with id [i]. *)
Definition downloads_of (i : string) (h : list event) : nat :=
  length (List.filter
            (λ e, match e with
                  | EGetContentFile driveFile _ _ _ =>
                      String.eqb (DriveFile.id driveFile) i
                  | _ => false
                  end) h).

(** [queries_of q h]: how many times the history [h] has the query [q]. *)
Definition queries_of (q : string) (h : list event) : nat :=
  length (List.filter
            (λ e, match e with
                  | EListFile q' => String.eqb q' q
                  | _ => false
                  end) h).

(** A regular file is an entry that is neither a folder nor a form. *)
Definition regular (driveFile : DriveFile.t) : Prop :=
  DriveFile.mimeType driveFile ≠ folder_mimeType
  ∧ DriveFile.mimeType driveFile ≠ form_mimeType.

Module Drives.

Definition report1 : DriveFile.t :=
  DriveFile.mk "Report" "id-r1" "application/pdf" None.
Definition report2 : DriveFile.t :=
  DriveFile.mk "Report" "id-r2" "application/pdf" None.
Definition report3 : DriveFile.t :=
  DriveFile.mk "Report" "id-r3" "application/pdf" None.
Definition archive : DriveFile.t :=
  DriveFile.mk "Archive" "id-archive" folder_mimeType None.
Definition data_folder : DriveFile.t :=
  DriveFile.mk "Data" "id-data-folder" folder_mimeType None.
Definition data_file : DriveFile.t :=
  DriveFile.mk "Data" "id-data-file" "text/plain" None.
Definition feedback : DriveFile.t :=
  DriveFile.mk "Feedback" "id-form" form_mimeType None.

(** Two files titled Report directly under the root. *)
Definition twins : list Store.entry :=
  [ Store.mk report1 ["root"] false; Store.mk report2 ["root"] false ].

(** One Report under the root, one inside the folder Archive. *)
Definition scattered : list Store.entry :=
  [ Store.mk report1 ["root"] false;
    Store.mk archive ["root"] false;
    Store.mk report3 ["id-archive"] false ].

(** A folder and a file that share the title Data, the folder first. *)
Definition namesakes : list Store.entry :=
  [ Store.mk data_folder ["root"] false;
    Store.mk data_file ["root"] false ].

(** A file whose download fails, between a form and a good file. *)
Definition flaky : list Store.entry :=
  [ Store.mk feedback ["root"] false;
    Store.mk Sample.photo ["root"] false;
    Store.mk Sample.sheet ["root"] false ].

End Drives.

(** [raises_by_makedirs r]: when [r] ends with an uncaught exception, the
    last thing that happened is a failed [os.makedirs]. *)
Definition raises_by_makedirs (r : run) : Prop :=
  ∀ h, snd (r h) = Raised →
       ∃ h' path, fst (r h) = h' ++ [EMakedirs path false].

(** [settles r r']: wherever [r] ends without running out of fuel, [r']
    does the same thing. *)
Definition settles (r r' : run) : Prop :=
  ∀ h, snd (r h) ≠ OutOfFuel → r' h = r h.

(** ** Shapes of file names *)

Definition is_digit (a : ascii) : bool :=
  existsb (Ascii.eqb a) ["0"; "1"; "2"; "3"; "4"; "5"; "6"; "7"; "8"; "9"]%char.

(** [all P s]: every character of [s] satisfies [P]. *)
Definition all (P : ascii → bool) (s : string) : bool :=
  negb (any (λ a, negb (P a)) s).

(** [tail_like s]: [s] is empty or starts with a character that is neither a
    digit nor an underscore, as extensions and suffixes do. *)
Definition tail_like (s : string) : bool :=
  match s with
  | EmptyString => true
  | String a _ => negb (is_digit a) && negb (Ascii.eqb a "_")
  end.


(** ** Invariants of a history *)

(** [starts_with pre s]: [s.startswith(pre)]. *)
Fixpoint starts_with (pre s : string) : bool :=
  match pre, s with
  | EmptyString, _ => true
  | String a pre', String b s' => Ascii.eqb a b && starts_with pre' s'
  | String _ _, EmptyString => false
  end.

(** [adds P r]: [r] only appends to the history, and every event it appends
    satisfies [P]. *)
Definition adds (P : event → Prop) (r : run) : Prop :=
  ∀ h, ∃ added, fst (r h) = h ++ added ∧ Forall P added.

(** [under root e]: if [e] touches the host file system, it does so at a
    path that starts with [root/]. *)
Definition under (root : string) (e : event) : Prop :=
  match e with
  | EMakedirs path _ => starts_with (root +:+ "/") path = true
  | EGetContentFile _ path _ _ => starts_with (root +:+ "/") path = true
  | _ => True
  end.

(** [resolved traceFlag e]: if [e] is a download, it is the download of a
    regular file in the MIME type [getMimeTypeAndSuffix] chose for it. *)
Definition resolved (traceFlag : bool) (e : event) : Prop :=
  match e with
  | EGetContentFile driveFile _ mimetype _ =>
      regular driveFile
      ∧ mimetype = Mtas.mimeType (getMimeTypeAndSuffix driveFile traceFlag)
  | _ => True
  end.

Definition is_print (e : event) : bool :=
  match e with EPrint _ => true | _ => false end.

(** [actions h]: the history without what was printed. *)
Definition actions (h : list event) : list event :=
  List.filter (λ e, negb (is_print e)) h.

(** [deaf w]: the outcomes of [os.makedirs] and [GetContentFile] in world
    [w] do not depend on what the script has printed. *)
Definition deaf (w : world) : Prop :=
  ∀ h h', actions h = actions h' →
    (∀ path, makedirs_ok w h path = makedirs_ok w h' path)
    ∧ (∀ driveFile filename mimetype,
         GetContentFile_ok w h driveFile filename mimetype
         = GetContentFile_ok w h' driveFile filename mimetype).

(** [alike r r']: started on histories with the same actions, [r] and [r']
    end the same way on histories with the same actions. *)
Definition alike (r r' : run) : Prop :=
  ∀ h h', actions h = actions h' →
    actions (fst (r h)) = actions (fst (r' h')) ∧ snd (r h) = snd (r' h').


(** [silent r]: [r] ends normally and does nothing but print. *)
Definition silent (r : run) : Prop :=
  ∀ h, actions (fst (r h)) = actions h ∧ snd (r h) = Done.


(** [never_done r]: [r] does not end normally, whatever happened before. *)
Definition never_done (r : run) : Prop := ∀ h, snd (r h) ≠ Done.

(** [downloaded h]: the files on which the history [h] has a call of
    [GetContentFile], in order. *)
Definition downloaded (h : list event) : list DriveFile.t :=
  flat_map (λ e, match e with
                 | EGetContentFile driveFile _ _ _ => [driveFile]
                 | _ => []
                 end) h.

(** The test the walk makes for a regular file: both comparisons of the
    MIME type fail. *)
Definition is_regular (driveFile : DriveFile.t) : bool :=
  negb (String.eqb (DriveFile.mimeType driveFile) folder_mimeType)
  && negb (String.eqb (DriveFile.mimeType driveFile) form_mimeType).

Module Nested.

(** A folder Photos under the root that holds a folder Photos, which holds
    one picture. *)
Definition outer : DriveFile.t :=
  DriveFile.mk "Photos" "id-outer" folder_mimeType None.
Definition inner : DriveFile.t :=
  DriveFile.mk "Photos" "id-inner" folder_mimeType None.

Definition store : list Store.entry :=
  [ Store.mk outer ["root"] false;
    Store.mk inner ["id-outer"] false;
    Store.mk Sample.photo ["id-inner"] false ].

End Nested.


(** Two session bootstrappers: one that lets the handshake through, one
    whose local web server flow is refused. *)
Module Bootstrap.

Definition granted : bootstrapper :=
  {| GoogleAuth_ok := λ _, true; LocalWebserverAuth_ok := λ _, true |}.


End Bootstrap.


(** More drives: a folder and a file that share the title Data, with a file
    Notes listed after them; and a title with a backslash. *)
Module Drives2.

Definition notes : DriveFile.t :=
  DriveFile.mk "Notes" "id-notes" "text/plain" None.

Definition namesakes_and_notes : list Store.entry :=
  [ Store.mk Drives.data_folder ["root"] false;
    Store.mk Drives.data_file ["root"] false;
    Store.mk notes ["root"] false ].



End Drives2.


(** * Properties *)

(** ** Strings *)

Section StringFacts.
Implicit Types (s t : string) (a c : ascii).

Lemma app_nil t : "" +:+ t = t.
Proof. reflexivity. Qed.

Lemma app_cons a s t : String a s +:+ t = String a (s +:+ t).
Proof. reflexivity. Qed.

Lemma append_empty_r s : s +:+ "" = s.
Proof.
  induction s as [|a s IH]; [reflexivity |]. by rewrite app_cons, IH.
Qed.

Lemma append_assoc s t u : (s +:+ t) +:+ u = s +:+ (t +:+ u).
Proof.
  induction s as [|a s IH]; [reflexivity |]. by rewrite !app_cons, IH.
Qed.

Lemma has_append c s t : Py.has c (s +:+ t) = Py.has c s || Py.has c t.
Proof.
  induction s as [|a s IH]; [reflexivity |].
  rewrite app_cons. simpl. by rewrite IH, orb_assoc.
Qed.

Lemma replace_one_smap old new s :
  Py.replace old (String new "") s
  = Py.smap (λ a, if Ascii.eqb a old then new else a) s.
Proof.
  induction s as [|a s IH]; simpl; [reflexivity |].
  rewrite IH. by destruct (Ascii.eqb a old).
Qed.

Lemma smap_smap f g s : Py.smap f (Py.smap g s) = Py.smap (f ∘ g) s.
Proof. induction s as [|a s IH]; simpl; [reflexivity | by rewrite IH]. Qed.

Lemma smap_ext f g s : (∀ a, f a = g a) → Py.smap f s = Py.smap g s.
Proof.
  intros E. induction s as [|a s IH]; simpl; [reflexivity |].
  by rewrite E, IH.
Qed.

Lemma has_smap_false f c s :
  (∀ a, Ascii.eqb (f a) c = false) → Py.has c (Py.smap f s) = false.
Proof.
  intros E. induction s as [|a s IH]; simpl; [reflexivity |].
  by rewrite E, IH.
Qed.

Lemma take_drop n s : Py.take n s +:+ Py.drop n s = s.
Proof.
  revert s. induction n as [|n IH]; intros [|a s]; simpl; try reflexivity.
  by rewrite app_cons, IH.
Qed.

End StringFacts.

(** ** makePcFileName *)

Ltac each_ascii a := destruct a as [[] [] [] [] [] [] [] []].

Lemma makePcFileName_smap s traceFlag :
  makePcFileName s traceFlag = Py.smap sanitize_char s.
Proof.
  unfold makePcFileName.
  rewrite !replace_one_smap, !smap_smap.
  apply smap_ext. intros a. each_ascii a; reflexivity.
Qed.

Lemma sanitize_char_legal a c :
  In c illegal → Ascii.eqb (sanitize_char a) c = false.
Proof.
  intros Hc.
  assert (E : existsb (Ascii.eqb (sanitize_char a)) illegal = false)
    by (each_ascii a; reflexivity).
  destruct (Ascii.eqb (sanitize_char a) c) eqn:D; [| reflexivity].
  rewrite <- E. symmetry. apply existsb_exists. eauto.
Qed.

Lemma sanitize_char_idem a : sanitize_char (sanitize_char a) = sanitize_char a.
Proof. each_ascii a; reflexivity. Qed.

Lemma clean_spec s : clean s = true ↔ ∀ c, In c illegal → Py.has c s = false.
Proof.
  unfold clean. rewrite forallb_forall.
  split; intros H c Hc; specialize (H c Hc).
  - by apply negb_true_iff.
  - by apply negb_true_iff.
Qed.

Lemma clean_append s t : clean (s +:+ t) = clean s && clean t.
Proof.
  unfold clean. induction illegal as [|c l IH]; simpl; [reflexivity |].
  rewrite IH, has_append, negb_orb.
  destruct (Py.has c s), (Py.has c t); simpl; try reflexivity;
    rewrite ?andb_false_r; reflexivity.
Qed.

(** C7. For every input string, [makePcFileName] replaces each occurrence of
    each of the fifteen illegal characters with an underscore and leaves
    every other character as it is; hence its result contains none of the
    illegal characters. *)
Theorem makePcFileName_clean (s : string) (traceFlag : bool) :
  makePcFileName s traceFlag = Py.smap sanitize_char s
  ∧ List.Forall (λ c, Py.has c (makePcFileName s traceFlag) = false) illegal
  ∧ clean (makePcFileName s traceFlag) = true.
Proof.
  assert (H : ∀ c, In c illegal → Py.has c (makePcFileName s traceFlag) = false).
  { intros c Hc. rewrite makePcFileName_smap.
    apply has_smap_false. intros a. by apply sanitize_char_legal. }
  split; [apply makePcFileName_smap |].
  split; [by apply List.Forall_forall | by apply clean_spec].
Qed.

(** C8. [makePcFileName] is idempotent: sanitizing a sanitized name gives
    the same name. *)
Theorem makePcFileName_idempotent (s : string) (traceFlag : bool) :
  makePcFileName (makePcFileName s traceFlag) traceFlag
  = makePcFileName s traceFlag.
Proof.
  rewrite !makePcFileName_smap, smap_smap.
  apply smap_ext. intros a. apply sanitize_char_idem.
Qed.

(** ** getMimeTypeAndSuffix *)

Lemma first_match_first pre k sfx post links :
  (∀ k' sfx', In (k', sfx') pre → key_in k' links = false) →
  key_in k links = true →
  first_match (pre ++ (k, sfx) :: post) links = Mtas.mk k sfx.
Proof.
  induction pre as [|[k' sfx'] pre IH]; intros Hpre Hk; simpl.
  - by rewrite Hk.
  - rewrite (Hpre k' sfx') by (by left).
    apply IH; [| exact Hk]. intros k'' sfx'' Hin. apply (Hpre k'' sfx''). by right.
Qed.

Lemma first_match_none table links :
  (∀ k sfx, In (k, sfx) table → key_in k links = false) →
  first_match table links = Mtas.mk "application/pdf" ".pdf".
Proof.
  induction table as [|[k sfx] table IH]; intros H; simpl; [reflexivity |].
  rewrite (H k sfx) by (by left).
  apply IH. intros k' sfx' Hin. apply (H k' sfx'). by right.
Qed.

Lemma getMimeTypeAndSuffix_resolve_spec driveFile links traceFlag :
  DriveFile.exportLinks driveFile = Some links →
  getMimeTypeAndSuffix driveFile traceFlag = resolve_spec links.
Proof. intros H. unfold getMimeTypeAndSuffix. rewrite H. reflexivity. Qed.

(** C1. For a file that has an export-links mapping, [getMimeTypeAndSuffix]
    picks the MIME type and suffix by the fixed order docx, odt, rtf, xlsx,
    ods, csv, tsv, pptx, odp, jpg, png, svg: the first key of that order that
    is in the mapping wins, whatever other keys are present.  In particular
    the word-processor key always gives [.docx], and when none of the twelve
    keys is present the result is the PDF MIME type with suffix [.pdf]. *)
Theorem getMimeTypeAndSuffix_priority
    (driveFile : DriveFile.t) (links : gmap string string) (traceFlag : bool)
    (Hlinks : DriveFile.exportLinks driveFile = Some links) :
  (∀ pre k sfx post,
     priority = pre ++ (k, sfx) :: post →
     (∀ k' sfx', In (k', sfx') pre → key_in k' links = false) →
     key_in k links = true →
     getMimeTypeAndSuffix driveFile traceFlag = Mtas.mk k sfx)
  ∧ (key_in "application/vnd.openxmlformats-officedocument.wordprocessingml.document"
       links = true →
     getMimeTypeAndSuffix driveFile traceFlag
     = Mtas.mk "application/vnd.openxmlformats-officedocument.wordprocessingml.document"
         ".docx")
  ∧ ((∀ k sfx, In (k, sfx) priority → key_in k links = false) →
     getMimeTypeAndSuffix driveFile traceFlag
     = Mtas.mk "application/pdf" ".pdf").
Proof.
  rewrite (getMimeTypeAndSuffix_resolve_spec _ _ _ Hlinks).
  unfold resolve_spec. split; [| split].
  - intros pre k sfx post -> Hpre Hk. by apply first_match_first.
  - intros Hk. apply (first_match_first [] _ _ (tail priority)); [| exact Hk].
    intros ? ? [].
  - apply first_match_none.
Qed.

(** The theorem at work: a Google Doc resolves to docx although odt, rtf and
    pdf are on offer too; a sheet offering csv and pdf resolves to csv, the
    sixth key, the first five being absent; a drawing with none of the twelve
    keys falls back to pdf. *)
Lemma getMimeTypeAndSuffix_priority_witness :
  DriveFile.exportLinks Sample.doc = Some Sample.doc_links
  ∧ getMimeTypeAndSuffix Sample.doc false = Mtas.mk Sample.docx_mime ".docx"
  ∧ getMimeTypeAndSuffix Sample.sheet false = Mtas.mk "text/csv" ".csv"
  ∧ getMimeTypeAndSuffix Sample.drawing false
    = Mtas.mk "application/pdf" ".pdf".
Proof.
  split; [reflexivity |]. split; [| split].
  - apply (getMimeTypeAndSuffix_priority Sample.doc Sample.doc_links false
             eq_refl).
    vm_compute. reflexivity.
  - apply (proj1 (getMimeTypeAndSuffix_priority Sample.sheet
                    Sample.sheet_links false eq_refl)
             (firstn 5 priority) "text/csv" ".csv" (skipn 6 priority)).
    + reflexivity.
    + intros k' sfx' Hin. simpl in Hin.
      repeat (destruct Hin as [Hin | Hin];
              [injection Hin as <- <-; vm_compute; reflexivity |]).
      destruct Hin.
    + vm_compute. reflexivity.
  - apply (getMimeTypeAndSuffix_priority Sample.drawing Sample.drawing_links
             false eq_refl).
    intros k sfx Hin. simpl in Hin.
    repeat (destruct Hin as [Hin | Hin];
            [injection Hin as <- <-; vm_compute; reflexivity |]).
    destruct Hin.
Defined.

(** C6. For a file without an export-links mapping, [getMimeTypeAndSuffix]
    returns the file's own MIME type and the empty suffix. *)
Theorem getMimeTypeAndSuffix_native
    (driveFile : DriveFile.t) (traceFlag : bool)
    (Hnone : DriveFile.exportLinks driveFile = None) :
  getMimeTypeAndSuffix driveFile traceFlag
  = Mtas.mk (DriveFile.mimeType driveFile) "".
Proof. unfold getMimeTypeAndSuffix. rewrite Hnone. reflexivity. Qed.

Lemma getMimeTypeAndSuffix_native_witness :
  DriveFile.exportLinks Sample.photo = None
  ∧ getMimeTypeAndSuffix Sample.photo true = Mtas.mk "image/jpeg" "".
Proof.
  split; [reflexivity |].
  apply (getMimeTypeAndSuffix_native Sample.photo true). reflexivity.
Defined.

(** ** os.path.splitext *)

Section SplitextFacts.
Implicit Types (s t u v : string) (a c : ascii) (P Q : ascii → bool).

Lemma length_append s t :
  String.length (s +:+ t) = (String.length s + String.length t)%nat.
Proof.
  induction s as [|a s IH]; [reflexivity |].
  rewrite app_cons. simpl. by rewrite IH.
Qed.

Lemma any_append P s t : any P (s +:+ t) = any P s || any P t.
Proof.
  induction s as [|a s IH]; [reflexivity |].
  rewrite app_cons. simpl. by rewrite IH, orb_assoc.
Qed.

Lemma take_append s t : Py.take (String.length s) (s +:+ t) = s.
Proof.
  induction s as [|a s IH]; [by destruct t |].
  rewrite app_cons. simpl. by rewrite IH.
Qed.

Lemma drop_append s t : Py.drop (String.length s) (s +:+ t) = t.
Proof. induction s as [|a s IH]; [reflexivity |]. by rewrite app_cons. Qed.

(** A string either has no character satisfying [P] or splits at the last
    one. *)
Lemma last_split P s :
  any P s = false
  ∨ ∃ u c v, s = u +:+ String c v ∧ P c = true ∧ any P v = false.
Proof.
  induction s as [|a s IH]; [by left |].
  destruct IH as [Hs | (u & c & v & -> & Hc & Hv)].
  - destruct (P a) eqn:Ha.
    + right. exists "", a, s. by rewrite app_nil.
    + left. simpl. by rewrite Ha, Hs.
  - right. exists (String a u), c, v. by rewrite app_cons.
Qed.

Lemma last_index_lower P s : -1 ≤ last_index P s.
Proof.
  induction s as [|a s IH]; simpl; [lia |].
  destruct (0 <=? last_index P s) eqn:E; [apply Z.leb_le in E; lia |].
  destruct (P a); lia.
Qed.

Lemma last_index_none P s : any P s = false → last_index P s = -1.
Proof.
  induction s as [|a s IH]; simpl; [done |].
  intros [Ha Hs]%orb_false_elim. by rewrite (IH Hs), Ha.
Qed.

Lemma last_index_found P u c v :
  P c = true → any P v = false →
  last_index P (u +:+ String c v) = Z.of_nat (String.length u).
Proof.
  intros Hc Hv. induction u as [|a u IH].
  - rewrite app_nil. simpl. by rewrite (last_index_none _ _ Hv), Hc.
  - rewrite app_cons. simpl. rewrite IH.
    destruct (0 <=? Z.of_nat (String.length u)) eqn:E; [lia |].
    apply Z.leb_gt in E. lia.
Qed.

Lemma rfind_last_index c s :
  Py.rfind c s = last_index (λ a, Ascii.eqb a c) s.
Proof. induction s as [|a s IH]; simpl; [done | by rewrite IH]. Qed.

Lemma last_index_max P Q s :
  Z.max (last_index P s) (last_index Q s)
  = last_index (λ a, P a || Q a) s.
Proof.
  induction s as [|a s IH]; simpl; [done |].
  pose proof (last_index_lower P s). pose proof (last_index_lower Q s).
  rewrite <- IH.
  destruct (0 <=? last_index P s) eqn:E1, (0 <=? last_index Q s) eqn:E2;
    try apply Z.leb_le in E1; try apply Z.leb_le in E2;
    try apply Z.leb_gt in E1; try apply Z.leb_gt in E2.
  - destruct (0 <=? _) eqn:E; [lia | apply Z.leb_gt in E; lia].
  - destruct (0 <=? _) eqn:E; [| apply Z.leb_gt in E; lia].
    destruct (Q a); lia.
  - destruct (0 <=? _) eqn:E; [| apply Z.leb_gt in E; lia].
    destruct (P a); lia.
  - destruct (0 <=? _) eqn:E; [apply Z.leb_le in E; lia |].
    destruct (P a), (Q a); simpl; lia.
Qed.

(** The separator index [_splitext] computes. *)
Lemma sepIndex_last_index os s :
  match altsep os with
  | Some a => Z.max (Py.rfind (sep os) s) (Py.rfind a s)
  | None => Py.rfind (sep os) s
  end = last_index (is_sep os) s.
Proof.
  destruct os; simpl.
  - rewrite rfind_last_index. unfold is_sep. simpl.
    induction s as [|a s IH]; simpl; [done |].
    by rewrite IH, orb_false_r.
  - by rewrite !rfind_last_index, last_index_max.
Qed.

Lemma at_append s a t :
  Py.at_ (Z.of_nat (String.length s)) (s +:+ String a t) = String a "".
Proof.
  unfold Py.at_. rewrite Nat2Z.id, drop_append. reflexivity.
Qed.

(** The loop of [_splitext] over the characters [t] that sit between the
    separator and the dot. *)
Lemma splitext_scan_any s t u :
  splitext_scan (String.length t) (s +:+ t +:+ u)
    (Z.of_nat (String.length s))
  = any (λ a, negb (is_dot a)) t.
Proof.
  revert s. induction t as [|a t IH]; intros s; [reflexivity |].
  cbn [String.length splitext_scan any].
  rewrite app_cons, at_append.
  replace (String a (t +:+ u)) with (String a "" +:+ t +:+ u) by done.
  rewrite <- append_assoc.
  replace (Z.of_nat (String.length s) + 1)
    with (Z.of_nat (String.length (s +:+ String a ""))).
  2:{ rewrite length_append. simpl. lia. }
  rewrite IH. unfold is_dot.
  change (String.eqb (String a "") (String extsep ""))
    with (Ascii.eqb a extsep && true).
  by rewrite andb_true_r.
Qed.

Lemma split_last_dot_none s :
  any is_dot s = false → split_last_dot s = (s, "").
Proof.
  destruct s as [|a s]; simpl; [done |].
  intros [Ha Hs]%orb_false_elim. by rewrite Hs, Ha.
Qed.

Lemma split_last_dot_found u c v :
  is_dot c = true → any is_dot v = false →
  split_last_dot (u +:+ String c v) = (u, String c v).
Proof.
  intros Hc Hv. induction u as [|a u IH].
  - rewrite app_nil. simpl. by rewrite Hv, Hc.
  - rewrite app_cons. simpl.
    rewrite any_append. simpl. rewrite Hc, orb_true_r. by rewrite IH.
Qed.

Lemma basename_none os s : any (is_sep os) s = false → basename os s = s.
Proof.
  destruct s as [|a s]; simpl; [done |].
  intros [Ha Hs]%orb_false_elim. by rewrite Hs, Ha.
Qed.

Lemma basename_found os u c v :
  is_sep os c = true → any (is_sep os) v = false →
  basename os (u +:+ String c v) = v.
Proof.
  intros Hc Hv. induction u as [|a u IH].
  - rewrite app_nil. simpl. by rewrite Hv, Hc.
  - rewrite app_cons. simpl.
    rewrite any_append. simpl. by rewrite Hc, orb_true_r.
Qed.

Lemma is_dot_eq c : is_dot c = true → c = extsep.
Proof. unfold is_dot. by intros ?%Ascii.eqb_eq. Qed.

Lemma is_sep_dot os : is_sep os extsep = false.
Proof. by destruct os. Qed.

End SplitextFacts.

Lemma basename_any_false os (P : ascii → bool) s :
  any P s = false → any P (basename os s) = false.
Proof.
  induction s as [|a s IH]; [done |].
  intros H. pose proof H as [Ha Hs]%orb_false_elim. simpl.
  destruct (any (is_sep os) s); [by apply IH |].
  by destruct (is_sep os a).
Qed.

Lemma splitext_unfold os p :
  splitext os p
  = if (last_index (is_sep os) p <? last_index is_dot p)
       && splitext_scan
            (Z.to_nat (last_index is_dot p - (last_index (is_sep os) p + 1)))
            p (last_index (is_sep os) p + 1)
    then (Py.take (Z.to_nat (last_index is_dot p)) p,
          Py.drop (Z.to_nat (last_index is_dot p)) p)
    else (p, "").
Proof.
  unfold splitext. cbv zeta.
  rewrite sepIndex_last_index, rfind_last_index. reflexivity.
Qed.

(** [os.path.splitext] cuts the title in front of its last dot when the
    title carries an extension, and returns it whole otherwise. *)
Lemma splitext_spec os p :
  splitext os p
  = if carries_extension os p then split_last_dot p else (p, "").
Proof.
  rewrite splitext_unfold. unfold carries_extension.
  destruct (last_split is_dot p) as [Hnodot | (u & c & v & -> & Hc & Hv)].
  { (* no dot at all *)
    rewrite (last_index_none _ _ Hnodot).
    pose proof (last_index_lower (is_sep os) p) as Hlow.
    destruct (last_index (is_sep os) p <? -1) eqn:E;
      [apply Z.ltb_lt in E; lia |].
    rewrite (split_last_dot_none _ (basename_any_false os _ _ Hnodot)).
    reflexivity. }
  assert (Hcsep : is_sep os c = false)
    by (rewrite (is_dot_eq _ Hc); apply is_sep_dot).
  rewrite (last_index_found _ _ _ _ Hc Hv), (split_last_dot_found _ _ _ Hc Hv).
  destruct (last_split (is_sep os) v) as [Hvsep | (x & a & y & -> & Ha & Hy)].
  2:{ (* a separator after the last dot *)
    replace (u +:+ String c (x +:+ String a y))
      with ((u +:+ String c x) +:+ String a y)
      by (by rewrite append_assoc, app_cons).
    rewrite (last_index_found _ _ _ _ Ha Hy), (basename_found _ _ _ _ Ha Hy).
    rewrite length_append. simpl String.length.
    destruct (_ <? _) eqn:E; [apply Z.ltb_lt in E; lia |].
    rewrite any_append in Hv. apply orb_false_elim in Hv as [_ Hv].
    simpl in Hv. apply orb_false_elim in Hv as [_ Hv].
    by rewrite (split_last_dot_none _ Hv). }
  destruct (last_split (is_sep os) u) as [Husep | (x & a & y & -> & Ha & Hy)].
  - (* no separator at all *)
    assert (Hp : any (is_sep os) (u +:+ String c v) = false)
      by (rewrite any_append; simpl; by rewrite Husep, Hcsep, Hvsep).
    rewrite (last_index_none _ _ Hp), (basename_none _ _ Hp).
    rewrite (split_last_dot_found _ _ _ Hc Hv).
    destruct (-1 <? _) eqn:E; [| apply Z.ltb_ge in E; lia].
    replace (Z.to_nat (Z.of_nat (String.length u) - (-1 + 1)))
      with (String.length u) by lia.
    change (-1 + 1) with (Z.of_nat (String.length "")).
    rewrite <- (app_nil (u +:+ String c v)) at 1.
    rewrite splitext_scan_any, Nat2Z.id, take_append, drop_append.
    reflexivity.
  - (* the last dot in the last path component *)
    assert (Hrest : any (is_sep os) (y +:+ String c v) = false)
      by (rewrite any_append; simpl; by rewrite Hy, Hcsep, Hvsep).
    replace ((x +:+ String a y) +:+ String c v)
      with (x +:+ String a (y +:+ String c v))
      by (by rewrite append_assoc, app_cons).
    rewrite (last_index_found _ _ _ _ Ha Hrest),
      (basename_found _ _ _ _ Ha Hrest), (split_last_dot_found _ _ _ Hc Hv).
    rewrite length_append. simpl String.length.
    destruct (_ <? _) eqn:E; [| apply Z.ltb_ge in E; lia].
    replace (Z.to_nat (Z.of_nat (String.length x + S (String.length y))
                       - (Z.of_nat (String.length x) + 1)))
      with (String.length y) by lia.
    replace (Z.of_nat (String.length x) + 1)
      with (Z.of_nat (String.length (x +:+ String a ""))).
    2:{ rewrite length_append. simpl. lia. }
    replace (x +:+ String a (y +:+ String c v))
      with ((x +:+ String a "") +:+ y +:+ String c v) at 1
      by (by rewrite append_assoc).
    rewrite splitext_scan_any. simpl andb.
    destruct (any (λ a0, negb (is_dot a0)) y); [| reflexivity].
    replace (Z.to_nat (Z.of_nat (String.length x + S (String.length y))))
      with (String.length (x +:+ String a y)).
    2:{ rewrite length_append. simpl. lia. }
    replace (x +:+ String a (y +:+ String c v))
      with ((x +:+ String a y) +:+ String c v)
      by (by rewrite append_assoc, app_cons).
    by rewrite take_append, drop_append.
Qed.

(** ** getDownloadFileName *)

Lemma clean_cons a s :
  clean (String a s) = negb (existsb (Ascii.eqb a) illegal) && clean s.
Proof.
  change (String a s) with (String a "" +:+ s). rewrite clean_append.
  f_equal. each_ascii a; reflexivity.
Qed.

Lemma string_of_uint_clean d : clean (NilEmpty.string_of_uint d) = true.
Proof. induction d; simpl; [reflexivity | by rewrite clean_cons, IHd ..]. Qed.

Lemma str_clean i : 0 < i → clean (Py.str i) = true.
Proof.
  destruct i as [|p|p]; [lia | | lia]. intros _.
  unfold Py.str, NilZero.string_of_int, NilZero.string_of_uint. simpl.
  pose proof (string_of_uint_clean (Pos.to_uint p)) as H.
  by destruct (Pos.to_uint p).
Qed.

Lemma index_part_clean i : clean (index_part i) = true.
Proof.
  unfold index_part. destruct (0 <? i) eqn:E; [| reflexivity].
  apply Z.ltb_lt in E. by rewrite clean_append, (str_clean _ E).
Qed.

Lemma getDownloadFileName_unfold os rootDir title suffix i traceFlag :
  getDownloadFileName os rootDir title suffix i traceFlag
  = rootDir +:+ "/"
    +:+ (makePcFileName (fst (splitext os title)) traceFlag +:+ index_part i)
    +:+ (if String.eqb (snd (splitext os title)) "" then suffix
         else snd (splitext os title)).
Proof.
  unfold getDownloadFileName, index_part.
  destruct (splitext os title) as [fileName extension]. cbn [fst snd].
  destruct (0 <? i); rewrite ?append_assoc, ?append_empty_r; reflexivity.
Qed.

Lemma carries_extension_split os title :
  carries_extension os title = true →
  ∃ base ext, split_last_dot title = (base, ext) ∧ String.eqb ext "" = false.
Proof.
  unfold carries_extension. intros H.
  destruct (last_split is_dot title) as [Hno | (u & c & v & -> & Hc & Hv)].
  - rewrite (split_last_dot_none _ (basename_any_false os _ _ Hno)) in H.
    discriminate.
  - exists u, (String c v). by rewrite (split_last_dot_found _ _ _ Hc Hv).
Qed.

(** What the builder does sanitize.  The path is [rootDir], the separator
    [/], the stem and the extension; the stem (the sanitized base name and,
    for a positive index, the underscore and the decimal index) contains
    none of the illegal characters. *)
Lemma getDownloadFileName_stem_clean
    (os : flavour) (rootDir title suffix : string) (i : Z) (traceFlag : bool) :
  let fileName := fst (splitext os title) in
  let extension := snd (splitext os title) in
  let stem :=
    makePcFileName fileName traceFlag
    +:+ (if 0 <? i then "_" +:+ Py.str i else "") in
  getDownloadFileName os rootDir title suffix i traceFlag
  = rootDir +:+ "/" +:+ stem
    +:+ (if String.eqb extension "" then suffix else extension)
  ∧ clean stem = true.
Proof.
  cbv zeta. split; [apply getDownloadFileName_unfold |].
  rewrite clean_append.
  assert (Hbase : clean (makePcFileName (fst (splitext os title)) traceFlag)
                  = true).
  { rewrite makePcFileName_smap. apply clean_spec. intros c Hc.
    apply has_smap_false. intros a. by apply sanitize_char_legal. }
  rewrite Hbase. apply index_part_clean.
Qed.

(** What the builder does not sanitize: the extension it takes from the
    title.  An illegal character there is an illegal character of the file
    name that follows [rootDir/]. *)
Lemma getDownloadFileName_extension_kept
    (os : flavour) (rootDir title suffix : string) (i : Z) (traceFlag : bool) :
  clean (snd (splitext os title)) = false →
  ∃ name,
    getDownloadFileName os rootDir title suffix i traceFlag
    = rootDir +:+ "/" +:+ name
    ∧ clean name = false.
Proof.
  intros Hext. rewrite getDownloadFileName_unfold.
  eexists. split; [reflexivity |].
  rewrite clean_append.
  destruct (String.eqb (snd (splitext os title)) "") eqn:E.
  - apply String.eqb_eq in E. rewrite E in Hext. discriminate.
  - by rewrite Hext, andb_false_r.
Qed.

(** C3.  The code at the input on which the claim fails: a file titled
    [minutes.10:30].  [os.path.splitext] takes [.10:30] as the extension;
    only the base name [minutes] goes through [makePcFileName], and the file
    name built keeps the colon, an illegal character.  The folder branch of
    the walk sanitizes the whole title and would give [minutes.10_30]. *)
Theorem extension_keeps_illegal_character :
  splitext posix "minutes.10:30" = ("minutes", ".10:30")
  ∧ splitext nt "minutes.10:30" = ("minutes", ".10:30")
  ∧ getDownloadFileName posix "out" "minutes.10:30" "" 0 false
    = "out" +:+ "/" +:+ "minutes.10:30"
  ∧ getDownloadFileName nt "out" "minutes.10:30" "" 0 false
    = "out" +:+ "/" +:+ "minutes.10:30"
  ∧ In ":"%char illegal
  ∧ Py.has ":" "minutes.10:30" = true
  ∧ clean "minutes.10:30" = false
  ∧ makePcFileName "minutes.10:30" false = "minutes.10_30".
Proof.
  repeat split; try reflexivity. simpl. tauto.
Qed.

(** C4, as the code has it.  The title is cut in front of its last dot when
    that dot lies in the last path component of the title, behind a character
    of that component that is not a dot; the part from the dot on is then used
    as the extension, whatever the suffix.  Otherwise the whole title is the
    base name and the suffix is appended.  A positive index is inserted, as
    an underscore and its decimal numeral, between base name and extension;
    two files titled Report with suffix .pdf get [Report.pdf] and
    [Report_1.pdf]. *)
Theorem getDownloadFileName_split
    (os : flavour) (rootDir title suffix : string) (i : Z) (traceFlag : bool) :
  getDownloadFileName os rootDir title suffix i traceFlag
  = (if carries_extension os title then
       rootDir +:+ "/"
       +:+ makePcFileName (fst (split_last_dot title)) traceFlag
       +:+ (if 0 <? i then "_" +:+ Py.str i else "")
       +:+ snd (split_last_dot title)
     else
       rootDir +:+ "/" +:+ makePcFileName title traceFlag
       +:+ (if 0 <? i then "_" +:+ Py.str i else "")
       +:+ suffix)
  ∧ (carries_extension os title = true →
     getDownloadFileName os rootDir title suffix i traceFlag
     = buildPath_spec rootDir title suffix i)
  ∧ (any is_dot title = false →
     getDownloadFileName os rootDir title suffix i traceFlag
     = buildPath_spec rootDir title suffix i)
  ∧ getDownloadFileName os rootDir "Report" ".pdf" 0 traceFlag
    = rootDir +:+ "/Report.pdf"
  ∧ getDownloadFileName os rootDir "Report" ".pdf" 1 traceFlag
    = rootDir +:+ "/Report_1.pdf".
Proof.
  assert (Hmain :
    getDownloadFileName os rootDir title suffix i traceFlag
    = (if carries_extension os title then
         rootDir +:+ "/"
         +:+ makePcFileName (fst (split_last_dot title)) traceFlag
         +:+ index_part i +:+ snd (split_last_dot title)
       else
         rootDir +:+ "/" +:+ makePcFileName title traceFlag
         +:+ index_part i +:+ suffix)).
  { rewrite getDownloadFileName_unfold, splitext_spec, append_assoc.
    destruct (carries_extension os title) eqn:E; [| reflexivity].
    destruct (carries_extension_split _ _ E) as (base & ext & Hs & He).
    rewrite Hs. cbn [fst snd]. by rewrite He. }
  assert (Hspec : ∀ tf, makePcFileName (fst (split_last_dot title)) tf
                        = makePcFileName (fst (split_last_dot title)) false)
    by (intros tf; by rewrite !makePcFileName_smap).
  repeat split.
  - exact Hmain.
  - intros E. rewrite Hmain, E. unfold buildPath_spec.
    destruct (carries_extension_split _ _ E) as (base & ext & Hs & He).
    rewrite Hspec, Hs. cbn [fst snd]. by rewrite He.
  - intros Hno. rewrite Hmain. unfold carries_extension, buildPath_spec.
    rewrite (split_last_dot_none _ (basename_any_false os _ _ Hno)).
    rewrite (split_last_dot_none _ Hno). simpl.
    by rewrite !makePcFileName_smap.
  - rewrite getDownloadFileName_unfold. by destruct os.
  - rewrite getDownloadFileName_unfold. by destruct os.
Qed.

(** The theorem needs no side condition for its first and last parts; its
    second and third part are met by a title with an extension of its own and
    by one without a dot. *)
Lemma getDownloadFileName_split_witness :
  carries_extension nt "notes.v2.txt" = true
  ∧ getDownloadFileName nt "out" "notes.v2.txt" ".docx" 2 true
    = "out/notes.v2_2.txt"
  ∧ any is_dot "Report" = false
  ∧ getDownloadFileName nt "out" "Report" ".pdf" 1 true = "out/Report_1.pdf".
Proof.
  split; [reflexivity |]. split; [| split; [reflexivity |]].
  - rewrite (proj1 (proj2 (getDownloadFileName_split
                             nt "out" "notes.v2.txt" ".docx" 2 true)));
      reflexivity.
  - rewrite (proj1 (proj2 (proj2 (getDownloadFileName_split
                                    nt "out" "Report" ".pdf" 1 true))));
      reflexivity.
Defined.

(** C4 as stated fails where the last dot of the title does not start an
    extension: a leading dot, or a dot in front of a path separator.  The
    code appends the suffix to the whole title there. *)
Lemma getDownloadFileName_not_last_dot :
  getDownloadFileName posix "out" ".notes" ".docx" 0 false = "out/.notes.docx"
  ∧ getDownloadFileName nt "out" ".notes" ".docx" 0 false = "out/.notes.docx"
  ∧ buildPath_spec "out" ".notes" ".docx" 0 = "out/.notes"
  ∧ getDownloadFileName posix "out" "plan v1.5/draft" ".docx" 0 false
    = "out/plan v1.5_draft.docx"
  ∧ getDownloadFileName nt "out" "plan v1.5/draft" ".docx" 0 false
    = "out/plan v1.5_draft.docx"
  ∧ buildPath_spec "out" "plan v1.5/draft" ".docx" 0 = "out/plan v1.5/draft"
  ∧ getDownloadFileName posix "out" ".notes" ".docx" 0 false
    ≠ buildPath_spec "out" ".notes" ".docx" 0.
Proof. repeat split; try reflexivity. discriminate. Qed.

(** ** Sequencing *)

Section RunFacts.
Implicit Types (a b c : run) (h : list event).

Lemma seq_skip_l a h : (skip >> a) h = a h.
Proof. reflexivity. Qed.

Lemma seq_skip_r a h : (a >> skip) h = a h.
Proof. unfold seq, skip. by destruct (a h) as [h' []]. Qed.

Lemma seq_assoc a b c h : ((a >> b) >> c) h = (a >> b >> c) h.
Proof. unfold seq. by destruct (a h) as [h' []]. Qed.

Lemma seq_ext a a' b b' h :
  (∀ h', a h' = a' h') → (∀ h', b h' = b' h') →
  (a >> b) h = (a' >> b') h.
Proof.
  intros Ha Hb. unfold seq. rewrite Ha.
  destruct (a' h) as [h' []]; [apply Hb | done ..].
Qed.

Lemma seq_emit e a h : (emit e >> a) h = a (h ++ [e]).
Proof. reflexivity. Qed.

Lemma seq_all_app (l1 l2 : list run) h :
  seq_all (l1 ++ l2) h = (seq_all l1 >> seq_all l2) h.
Proof.
  revert h. induction l1 as [|a l1 IH]; intros h; [reflexivity |].
  simpl. rewrite seq_assoc. apply seq_ext; [done | apply IH].
Qed.

End RunFacts.

(** ** The walk *)

Section WalkFacts.
Context (os : flavour) (w : world) (traceFlag : bool).
Context (self : string → string → run).
Implicit Types (h : list event) (i : Z) (driveFile f : DriveFile.t).

Lemma for_f_unfold hostRootDir f h :
  for_f os w traceFlag self hostRootDir f h
  = (processing_notice traceFlag f >>
     emit (EListFile (title_query (DriveFile.title f))) >>
     for_driveFiles os w traceFlag self hostRootDir (DriveFile.title f)
       (ListFile w (title_query (DriveFile.title f))) 0) h.
Proof. reflexivity. Qed.

Lemma for_driveFiles_app hostRootDir driveName pre post i h :
  for_driveFiles os w traceFlag self hostRootDir driveName (pre ++ post) i h
  = (for_driveFiles os w traceFlag self hostRootDir driveName pre i >>
     for_driveFiles os w traceFlag self hostRootDir driveName post
       (i + Z.of_nat (length pre))) h.
Proof.
  revert i h. induction pre as [|x pre IH]; intros i h.
  - simpl. by rewrite Z.add_0_r.
  - cbn [app for_driveFiles length]. rewrite seq_assoc.
    apply seq_ext; [done |]. intros h'. rewrite IH.
    by replace (i + 1 + Z.of_nat (length pre))
      with (i + Z.of_nat (S (length pre))) by lia.
Qed.

Lemma for_driveFiles_imap hostRootDir driveName driveFiles i h :
  for_driveFiles os w traceFlag self hostRootDir driveName driveFiles i h
  = seq_all
      (imap (λ k driveFile,
               visit os w traceFlag self hostRootDir driveName driveFile
                 (i + Z.of_nat k))
         driveFiles) h.
Proof.
  revert i h. induction driveFiles as [|x l IH]; intros i h; [reflexivity |].
  cbn [for_driveFiles imap seq_all]. rewrite Z.add_0_r.
  apply seq_ext; [done |]. intros h'. rewrite IH. f_equal.
  apply imap_ext. intros k y _. simpl. f_equal. lia.
Qed.

Lemma visit_regular hostRootDir driveName driveFile i h :
  regular driveFile →
  visit os w traceFlag self hostRootDir driveName driveFile i h
  = try_GetContentFile w driveFile
      (getDownloadFileName os hostRootDir driveName
         (Mtas.suffix (getMimeTypeAndSuffix driveFile traceFlag)) i traceFlag)
      (Mtas.mimeType (getMimeTypeAndSuffix driveFile traceFlag))
      (when traceFlag
         (print ("Downloaded " +:+ DriveFile.title driveFile +:+ " to "
                 +:+ getDownloadFileName os hostRootDir driveName
                       (Mtas.suffix (getMimeTypeAndSuffix driveFile traceFlag))
                       i traceFlag) >>
          print (tab +:+ "Drive id = " +:+ DriveFile.id driveFile)))
      (print ("*** FAILED to download " +:+ DriveFile.title driveFile
              +:+ " to "
              +:+ getDownloadFileName os hostRootDir driveName
                    (Mtas.suffix (getMimeTypeAndSuffix driveFile traceFlag))
                    i traceFlag) >>
       print (tab +:+ "Drive id = " +:+ DriveFile.id driveFile)) h.
Proof.
  intros [Hfolder Hform]. unfold visit.
  apply String.eqb_neq in Hfolder, Hform. by rewrite Hfolder, Hform.
Qed.

End WalkFacts.

(** *** Exceptions come from os.makedirs only *)

Create HintDb raises.

Section Raises.
Context (os : flavour) (w : world) (traceFlag : bool).

Lemma raises_skip : raises_by_makedirs skip.
Proof. intros h H. discriminate. Qed.

Lemma raises_emit e : raises_by_makedirs (emit e).
Proof. intros h H. discriminate. Qed.

Lemma raises_seq a b :
  raises_by_makedirs a → raises_by_makedirs b → raises_by_makedirs (a >> b).
Proof.
  intros Ha Hb h. specialize (Ha h). unfold seq.
  destruct (a h) as [h' []]; simpl in *; [apply Hb | apply Ha | done].
Qed.

Lemma raises_when c a : raises_by_makedirs a → raises_by_makedirs (when c a).
Proof. destruct c; [done | intros _; apply raises_skip]. Qed.

Lemma raises_makedirs path : raises_by_makedirs (os_makedirs w path).
Proof.
  intros h. unfold os_makedirs. destruct (makedirs_ok w h path); [done |].
  intros _. by exists h, path.
Qed.

Lemma raises_try driveFile filename mimetype body handler :
  raises_by_makedirs body → raises_by_makedirs handler →
  raises_by_makedirs
    (try_GetContentFile w driveFile filename mimetype body handler).
Proof.
  intros Hb Hh h. unfold try_GetContentFile.
  destruct (GetContentFile_ok w h driveFile filename mimetype);
    [apply Hb | apply Hh].
Qed.

Local Hint Resolve raises_skip raises_emit raises_seq raises_when raises_makedirs
  raises_try : raises.

Lemma raises_visit self hostRootDir driveName driveFile i :
  (∀ a b, raises_by_makedirs (self a b)) →
  raises_by_makedirs
    (visit os w traceFlag self hostRootDir driveName driveFile i).
Proof.
  intros Hself. unfold visit, print.
  destruct (String.eqb _ folder_mimeType); [auto 10 with raises |].
  destruct (String.eqb _ form_mimeType); auto 10 with raises.
Qed.

Lemma raises_for_driveFiles self hostRootDir driveName driveFiles i :
  (∀ a b, raises_by_makedirs (self a b)) →
  raises_by_makedirs
    (for_driveFiles os w traceFlag self hostRootDir driveName driveFiles i).
Proof.
  intros Hself. revert i.
  induction driveFiles as [|x l IH]; intros i; simpl; [apply raises_skip |].
  apply raises_seq; [by apply raises_visit | apply IH].
Qed.

Lemma raises_for_file_list self hostRootDir file_list :
  (∀ a b, raises_by_makedirs (self a b)) →
  raises_by_makedirs
    (for_file_list os w traceFlag self hostRootDir file_list).
Proof.
  intros Hself.
  induction file_list as [|f l IH]; simpl; [apply raises_skip |].
  apply raises_seq; [| apply IH].
  unfold for_f, GetList, print.
  auto 10 using raises_for_driveFiles with raises.
Qed.

Lemma raises_downloadAllFilesInFolder fuel hostRootDir driveRootDir :
  raises_by_makedirs
    (downloadAllFilesInFolder os w fuel hostRootDir driveRootDir traceFlag).
Proof.
  revert hostRootDir driveRootDir.
  induction fuel as [|fuel IH]; intros hostRootDir driveRootDir.
  - intros h H. discriminate.
  - simpl. unfold GetList.
    apply raises_seq; [apply raises_emit |].
    apply raises_for_file_list. intros a b. apply IH.
Qed.

End Raises.

(** *** The bound on the recursion depth

    A run that ends within the bound is the run of the script: more fuel
    does not change it. *)

Section Fuel.
Context (os : flavour) (w : world) (traceFlag : bool).

Lemma settles_refl r : settles r r.
Proof. by intros h _. Qed.

Lemma settles_seq a a' b b' :
  settles a a' → settles b b' → settles (a >> b) (a' >> b').
Proof.
  intros Ha Hb h. specialize (Ha h). unfold seq.
  destruct (a h) as [h1 []] eqn:E; simpl in *.
  - intros H. rewrite Ha by done. by apply Hb.
  - intros _. by rewrite Ha.
  - done.
Qed.

Lemma settles_visit self self' hostRootDir driveName driveFile i :
  (∀ a b, settles (self a b) (self' a b)) →
  settles (visit os w traceFlag self hostRootDir driveName driveFile i)
          (visit os w traceFlag self' hostRootDir driveName driveFile i).
Proof.
  intros Hself. unfold visit.
  destruct (String.eqb _ folder_mimeType); [| apply settles_refl].
  repeat apply settles_seq; auto using settles_refl.
Qed.

Lemma settles_for_driveFiles self self' hostRootDir driveName driveFiles i :
  (∀ a b, settles (self a b) (self' a b)) →
  settles
    (for_driveFiles os w traceFlag self hostRootDir driveName driveFiles i)
    (for_driveFiles os w traceFlag self' hostRootDir driveName driveFiles i).
Proof.
  intros Hself. revert i.
  induction driveFiles as [|x l IH]; intros i; [apply settles_refl |].
  apply settles_seq; [by apply settles_visit | apply IH].
Qed.

Lemma settles_for_file_list self self' hostRootDir file_list :
  (∀ a b, settles (self a b) (self' a b)) →
  settles (for_file_list os w traceFlag self hostRootDir file_list)
          (for_file_list os w traceFlag self' hostRootDir file_list).
Proof.
  intros Hself.
  induction file_list as [|f l IH]; [apply settles_refl |].
  apply settles_seq; [| apply IH].
  unfold for_f, GetList.
  repeat apply settles_seq; auto using settles_refl, settles_for_driveFiles.
Qed.

Lemma settles_step fuel hostRootDir driveRootDir :
  settles
    (downloadAllFilesInFolder os w fuel hostRootDir driveRootDir traceFlag)
    (downloadAllFilesInFolder os w (S fuel) hostRootDir driveRootDir
       traceFlag).
Proof.
  revert hostRootDir driveRootDir.
  induction fuel as [|fuel IH]; intros hostRootDir driveRootDir.
  - by intros h H.
  - change (settles
      (GetList w (children_query driveRootDir) (λ file_list,
         for_file_list os w traceFlag
           (λ a b, downloadAllFilesInFolder os w fuel a b traceFlag)
           hostRootDir file_list))
      (GetList w (children_query driveRootDir) (λ file_list,
         for_file_list os w traceFlag
           (λ a b, downloadAllFilesInFolder os w (S fuel) a b traceFlag)
           hostRootDir file_list))).
    unfold GetList. apply settles_seq; [apply settles_refl |].
    apply settles_for_file_list. intros a b. apply IH.
Qed.

(** A traversal that ends within [fuel] nested calls ends the same way
    with any larger bound. *)
Lemma downloadAllFilesInFolder_fuel fuel fuel' hostRootDir driveRootDir h :
  (fuel ≤ fuel')%nat →
  snd (downloadAllFilesInFolder os w fuel hostRootDir driveRootDir
         traceFlag h) ≠ OutOfFuel →
  downloadAllFilesInFolder os w fuel' hostRootDir driveRootDir traceFlag h
  = downloadAllFilesInFolder os w fuel hostRootDir driveRootDir traceFlag h.
Proof.
  induction 1 as [|fuel' Hle IH]; intros Hdone; [reflexivity |].
  rewrite <- (IH Hdone). apply settles_step. by rewrite (IH Hdone).
Qed.

End Fuel.

(** *** The reference store answers a title query by title

    On the reference store the query built for a title without backslash
    selects the entries bearing exactly that title, whatever their parents
    and their trashed flag. *)





(** *** The claims about the walk *)

(** C5. When the download of a regular file raises, the walk records the
    failure in two printed lines that name the entry by its title and by its
    Drive id, ends the visit normally and goes on with the next entry of the
    group; and whatever the downloads do, the only exception that ends a
    traversal is one raised by [os.makedirs] (listings and prints being taken
    to return normally). *)
Theorem download_failure_is_reported
    (os : flavour) (w : world) (traceFlag : bool)
    (self : string → string → run)
    (hostRootDir driveName : string) (driveFile : DriveFile.t) (i : Z)
    (h : list event)
    (Hregular : regular driveFile)
    (Hfails :
       GetContentFile_ok w h driveFile
         (getDownloadFileName os hostRootDir driveName
            (Mtas.suffix (getMimeTypeAndSuffix driveFile traceFlag))
            i traceFlag)
         (Mtas.mimeType (getMimeTypeAndSuffix driveFile traceFlag)) = false) :
  let downloadFileName :=
    getDownloadFileName os hostRootDir driveName
      (Mtas.suffix (getMimeTypeAndSuffix driveFile traceFlag)) i traceFlag in
  let report :=
    [ EGetContentFile driveFile downloadFileName
        (Mtas.mimeType (getMimeTypeAndSuffix driveFile traceFlag)) false;
      EPrint ("*** FAILED to download " +:+ DriveFile.title driveFile
              +:+ " to " +:+ downloadFileName);
      EPrint (tab +:+ "Drive id = " +:+ DriveFile.id driveFile) ] in
  visit os w traceFlag self hostRootDir driveName driveFile i h
  = (h ++ report, Done)
  ∧ (∀ rest,
       for_driveFiles os w traceFlag self hostRootDir driveName
         (driveFile :: rest) i h
       = for_driveFiles os w traceFlag self hostRootDir driveName
           rest (i + 1) (h ++ report))
  ∧ (∀ fuel root dir h0,
       snd (downloadAllFilesInFolder os w fuel root dir traceFlag h0) = Raised →
       ∃ h' path,
         fst (downloadAllFilesInFolder os w fuel root dir traceFlag h0)
         = h' ++ [EMakedirs path false]).
Proof.
  cbv zeta.
  assert (Hvisit :
    visit os w traceFlag self hostRootDir driveName driveFile i h
    = (h ++ [ EGetContentFile driveFile
                (getDownloadFileName os hostRootDir driveName
                   (Mtas.suffix (getMimeTypeAndSuffix driveFile traceFlag))
                   i traceFlag)
                (Mtas.mimeType (getMimeTypeAndSuffix driveFile traceFlag))
                false;
              EPrint ("*** FAILED to download " +:+ DriveFile.title driveFile
                      +:+ " to "
                      +:+ getDownloadFileName os hostRootDir driveName
                            (Mtas.suffix
                               (getMimeTypeAndSuffix driveFile traceFlag))
                            i traceFlag);
              EPrint (tab +:+ "Drive id = " +:+ DriveFile.id driveFile) ],
       Done)).
  { rewrite (visit_regular _ _ _ _ _ _ _ _ _ Hregular).
    unfold try_GetContentFile. rewrite Hfails.
    unfold print, emit, seq. by rewrite <- !app_assoc. }
  split; [exact Hvisit |]. split.
  - intros rest. cbn [for_driveFiles]. unfold seq at 1. by rewrite Hvisit.
  - intros fuel root dir. apply raises_downloadAllFilesInFolder.
Qed.

(** The theorem on the drive [Drives.flaky], where the download of the photo
    fails; and, for its last part, on the drive [Drives.namesakes], whose
    traversal ends with an exception. *)
Lemma download_failure_is_reported_witness :
  regular Sample.photo
  ∧ GetContentFile_ok (Store.world_of Drives.flaky ["id-photo"]) []
      Sample.photo "out/beach.jpeg" "image/jpeg" = false
  ∧ visit posix (Store.world_of Drives.flaky ["id-photo"]) false
      (λ _ _, skip) "out" "beach.jpeg" Sample.photo 0 []
    = ([ EGetContentFile Sample.photo "out/beach.jpeg" "image/jpeg" false;
         EPrint "*** FAILED to download beach.jpeg to out/beach.jpeg";
         EPrint (tab +:+ "Drive id = id-photo") ], Done)
  ∧ snd (downloadAllFilesInFolder posix
           (Store.world_of Drives.flaky ["id-photo"]) 2 "out" "root" false [])
    = Done
  ∧ snd (downloadAllFilesInFolder posix
           (Store.world_of Drives.namesakes ["id-data-file"]) 2 "out" "root"
           false []) = Raised
  ∧ ∃ h' path,
      fst (downloadAllFilesInFolder posix
             (Store.world_of Drives.namesakes ["id-data-file"]) 2 "out" "root"
             false [])
      = h' ++ [EMakedirs path false].
Proof.
  assert (Hregular : regular Sample.photo) by (by split).
  split; [exact Hregular |]. split; [reflexivity |].
  split; [| split; [reflexivity | split; [reflexivity |]]].
  - apply (download_failure_is_reported posix
             (Store.world_of Drives.flaky ["id-photo"]) false (λ _ _, skip)
             "out" "beach.jpeg" Sample.photo 0 [] Hregular eq_refl).
  - assert (Hdata : regular Drives.data_file) by (by split).
    apply (proj2 (proj2 (download_failure_is_reported posix
                           (Store.world_of Drives.namesakes ["id-data-file"])
                           false (λ _ _, skip) "out" "Data" Drives.data_file
                           1 [] Hdata eq_refl))
             2%nat "out" "root" []).
    reflexivity.
Defined.

(** C10. In a title group the counter starts at zero and goes up by one
    after every entry, whatever the entry is: the entry at position
    [length pre] of the re-query result is visited with the index
    [length pre], folders and forms before it counted; and a regular file is
    downloaded to the path built with that index. *)
Theorem index_counts_every_entry
    (os : flavour) (w : world) (traceFlag : bool)
    (self : string → string → run)
    (hostRootDir : string) (f : DriveFile.t)
    (pre : list DriveFile.t) (driveFile : DriveFile.t)
    (post : list DriveFile.t) (h : list event)
    (Hgroup :
       ListFile w (title_query (DriveFile.title f))
       = pre ++ driveFile :: post) :
  for_f os w traceFlag self hostRootDir f h
  = (processing_notice traceFlag f >>
     emit (EListFile (title_query (DriveFile.title f))) >>
     for_driveFiles os w traceFlag self hostRootDir (DriveFile.title f) pre 0 >>
     visit os w traceFlag self hostRootDir (DriveFile.title f) driveFile
       (Z.of_nat (length pre)) >>
     for_driveFiles os w traceFlag self hostRootDir (DriveFile.title f) post
       (Z.of_nat (length pre) + 1)) h
  ∧ (regular driveFile →
     ∀ h', ∃ ok rest,
       fst (visit os w traceFlag self hostRootDir (DriveFile.title f)
              driveFile (Z.of_nat (length pre)) h')
       = h' ++ EGetContentFile driveFile
                 (getDownloadFileName os hostRootDir (DriveFile.title f)
                    (Mtas.suffix (getMimeTypeAndSuffix driveFile traceFlag))
                    (Z.of_nat (length pre)) traceFlag)
                 (Mtas.mimeType (getMimeTypeAndSuffix driveFile traceFlag)) ok
               :: rest).
Proof.
  split.
  - rewrite for_f_unfold, Hgroup.
    apply seq_ext; [done |]. intros h1. apply seq_ext; [done |]. intros h2.
    rewrite for_driveFiles_app. apply seq_ext; [done |]. intros h3.
    reflexivity.
  - intros Hregular h'.
    rewrite (visit_regular _ _ _ _ _ _ _ _ _ Hregular).
    unfold try_GetContentFile.
    destruct (GetContentFile_ok _ _ _ _ _).
    + exists true. destruct traceFlag; simpl.
      * eexists. unfold print, emit, seq. simpl.
        rewrite <- !app_assoc. reflexivity.
      * exists []. reflexivity.
    + exists false. eexists. unfold print, emit, seq. simpl.
      rewrite <- !app_assoc. reflexivity.
Qed.

(** The theorem on the drive [Drives.namesakes]: the folder Data comes first
    in the group, so the file Data is built with index 1. *)
Lemma index_counts_every_entry_witness :
  ListFile (Store.world_of Drives.namesakes [])
    (title_query (DriveFile.title Drives.data_folder))
  = [Drives.data_folder] ++ Drives.data_file :: []
  ∧ regular Drives.data_file
  ∧ ∃ ok rest,
      fst (visit posix (Store.world_of Drives.namesakes []) false
             (λ _ _, skip) "out" "Data" Drives.data_file 1 [])
      = [] ++ EGetContentFile Drives.data_file "out/Data_1" "text/plain" ok
              :: rest.
Proof.
  assert (Hregular : regular Drives.data_file) by (by split).
  split; [reflexivity |]. split; [exact Hregular |].
  apply (proj2 (index_counts_every_entry posix
                  (Store.world_of Drives.namesakes []) false (λ _ _, skip)
                  "out" Drives.data_folder [Drives.data_folder]
                  Drives.data_file [] [] eq_refl) Hregular []).
Defined.

(** The run behind the witness: folder first, file second, index 1. *)
Example namesakes_run :
  for_f posix (Store.world_of Drives.namesakes []) false (λ _ _, skip)
    "out" Drives.data_folder []
  = ([ EListFile "title='Data'";
       EMakedirs "out/Data" true;
       EGetContentFile Drives.data_file "out/Data_1" "text/plain" true ],
     Done).
Proof. reflexivity. Qed.

(** The traversal of the root of [Drives.scattered]: the Report that lives
    in Archive is downloaded into the root directory as [Report_1], and in
    Archive the Report of the root is downloaded too. *)
Example scattered_run :
  downloadAllFilesInFolder posix (Store.world_of Drives.scattered []) 2
    "out" "root" false []
  = ([ EListFile "'root' in parents and trashed=false";
       EListFile "title='Report'";
       EGetContentFile Drives.report1 "out/Report" "application/pdf" true;
       EGetContentFile Drives.report3 "out/Report_1" "application/pdf" true;
       EListFile "title='Archive'";
       EMakedirs "out/Archive" true;
       EListFile "'id-archive' in parents and trashed=false";
       EListFile "title='Report'";
       EGetContentFile Drives.report1 "out/Archive/Report" "application/pdf"
         true;
       EGetContentFile Drives.report3 "out/Archive/Report_1" "application/pdf"
         true ],
     Done).
Proof. reflexivity. Qed.

(** The shape of a traversal.  It lists the children of the container once
    and then handles one title group for every entry of that listing, in
    listing order, whether or not an earlier entry had the same title; a
    group issues the title query and visits every entry of its answer once,
    in order, with its position as index.  The steps run one after the other
    until one of them ends abnormally. *)
Lemma one_group_per_listed_entry
    (os : flavour) (w : world) (traceFlag : bool) (fuel : nat)
    (hostRootDir driveRootDir : string) (h : list event) :
  downloadAllFilesInFolder os w (S fuel) hostRootDir driveRootDir traceFlag h
  = (emit (EListFile (children_query driveRootDir)) >>
     seq_all
       (map
          (λ f,
             processing_notice traceFlag f >>
             emit (EListFile (title_query (DriveFile.title f))) >>
             seq_all
               (imap
                  (λ k driveFile,
                     visit os w traceFlag
                       (λ newFolderName driveFolderId,
                          downloadAllFilesInFolder os w fuel newFolderName
                            driveFolderId traceFlag)
                       hostRootDir (DriveFile.title f) driveFile
                       (Z.of_nat k))
                  (ListFile w (title_query (DriveFile.title f)))))
          (ListFile w (children_query driveRootDir)))) h.
Proof.
  cbn [downloadAllFilesInFolder]. unfold GetList.
  apply seq_ext; [done |]. clear h. intros h.
  fold (children_query driveRootDir).
  induction (ListFile w (children_query driveRootDir)) as [|f l IH] in h |- *;
    [reflexivity |].
  cbn [for_file_list map seq_all].
  apply seq_ext; [| exact IH]. clear. intros h.
  rewrite for_f_unfold.
  apply seq_ext; [done |]. intros h1. apply seq_ext; [done |]. intros h2.
  apply for_driveFiles_imap.
Qed.

(** Two listed files that share a title: the group of that title is handled
    once for each of them, so each of the two files is downloaded twice. *)
Lemma twins_downloaded_twice :
  ListFile (Store.world_of Drives.twins []) (children_query "root")
  = [Drives.report1; Drives.report2]
  ∧ downloadAllFilesInFolder posix (Store.world_of Drives.twins []) 1
      "out" "root" false []
    = ([ EListFile "'root' in parents and trashed=false";
         EListFile "title='Report'";
         EGetContentFile Drives.report1 "out/Report" "application/pdf" true;
         EGetContentFile Drives.report2 "out/Report_1" "application/pdf" true;
         EListFile "title='Report'";
         EGetContentFile Drives.report1 "out/Report" "application/pdf" true;
         EGetContentFile Drives.report2 "out/Report_1" "application/pdf" true ],
       Done)
  ∧ queries_of "title='Report'"
      (fst (downloadAllFilesInFolder posix (Store.world_of Drives.twins []) 1
              "out" "root" false [])) = 2%nat
  ∧ downloads_of "id-r1"
      (fst (downloadAllFilesInFolder posix (Store.world_of Drives.twins []) 1
              "out" "root" false [])) = 2%nat
  ∧ downloads_of "id-r2"
      (fst (downloadAllFilesInFolder posix (Store.world_of Drives.twins []) 1
              "out" "root" false [])) ≠ 1%nat.
Proof. repeat split; try reflexivity. vm_compute. discriminate. Qed.

(** C2.  The code at an input on which the claim fails: the root lists a
    folder Data, a file Data and a file Notes.  The group of the title Data
    is handled for the folder and again for the file; the second pass makes
    the directory [out/Data] a second time, [os.makedirs] raises, and the
    traversal ends there: the title query is issued twice, and the file
    Notes, though listed, is never visited. *)
Theorem shared_title_group_repeated :
  ListFile (Store.world_of Drives2.namesakes_and_notes [])
    (children_query "root")
  = [Drives.data_folder; Drives.data_file; Drives2.notes]
  ∧ downloadAllFilesInFolder posix
      (Store.world_of Drives2.namesakes_and_notes []) 2 "out" "root" false []
    = ([ EListFile "'root' in parents and trashed=false";
         EListFile "title='Data'";
         EMakedirs "out/Data" true;
         EListFile "'id-data-folder' in parents and trashed=false";
         EGetContentFile Drives.data_file "out/Data_1" "text/plain" true;
         EListFile "title='Data'";
         EMakedirs "out/Data" false ],
       Raised)
  ∧ queries_of "title='Data'"
      (fst (downloadAllFilesInFolder posix
              (Store.world_of Drives2.namesakes_and_notes []) 2 "out" "root"
              false [])) = 2%nat
  ∧ queries_of "title='Notes'"
      (fst (downloadAllFilesInFolder posix
              (Store.world_of Drives2.namesakes_and_notes []) 2 "out" "root"
              false [])) = 0%nat
  ∧ downloads_of "id-notes"
      (fst (downloadAllFilesInFolder posix
              (Store.world_of Drives2.namesakes_and_notes []) 2 "out" "root"
              false [])) = 0%nat.
Proof. repeat split; reflexivity. Qed.

(** ** Further runs *)

(** A form is reported and skipped, a failed download is reported, and the
    entries after them are still handled. *)
Example flaky_run :
  downloadAllFilesInFolder posix (Store.world_of Drives.flaky ["id-photo"]) 1
    "out" "root" false []
  = ([ EListFile "'root' in parents and trashed=false";
       EListFile "title='Feedback'";
       EPrint "*** Google Drive does not support export/download of Google Forms: Feedback";
       EPrint (tab +:+ "Drive id = id-form");
       EListFile "title='beach.jpeg'";
       EGetContentFile Sample.photo "out/beach.jpeg" "image/jpeg" false;
       EPrint "*** FAILED to download beach.jpeg to out/beach.jpeg";
       EPrint (tab +:+ "Drive id = id-photo");
       EListFile "title='Budget'";
       EGetContentFile Sample.sheet "out/Budget.csv" "text/csv" true ],
     Done).
Proof. reflexivity. Qed.

(** Two listed entries that share a title, the first of them a folder: the
    second pass over the group makes the folder again, and [os.makedirs]
    ends the traversal. *)
Example namesakes_abort :
  snd (downloadAllFilesInFolder posix (Store.world_of Drives.namesakes []) 2
         "out" "root" false []) = Raised.
Proof. reflexivity. Qed.

Example makePcFileName_run :
  makePcFileName "a/b:c?.txt" false = "a_b_c_.txt".
Proof. reflexivity. Qed.

Example str_run : Py.str 0 = "0" ∧ Py.str 7 = "7" ∧ Py.str 12 = "12".
Proof. by repeat split. Qed.

(** * Further properties of the script *)

(** ** makePcFileName, continued *)

Lemma smap_length f s : String.length (Py.smap f s) = String.length s.
Proof. induction s as [|a s IH]; simpl; [reflexivity | by rewrite IH]. Qed.

Lemma smap_append f s t :
  Py.smap f (s +:+ t) = Py.smap f s +:+ Py.smap f t.
Proof.
  induction s as [|a s IH]; [reflexivity |].
  rewrite app_cons. simpl. by rewrite IH, app_cons.
Qed.

Lemma smap_sanitize_clean s : clean (Py.smap sanitize_char s) = true.
Proof.
  apply clean_spec. intros c Hc. apply has_smap_false.
  intros a. by apply sanitize_char_legal.
Qed.

Lemma sanitize_char_id a :
  existsb (Ascii.eqb a) illegal = false → sanitize_char a = a.
Proof. unfold sanitize_char. by intros ->. Qed.

Lemma sanitize_char_underscore c :
  In c ("_"%char :: illegal) → sanitize_char c = "_"%char.
Proof.
  simpl. intros H.
  repeat (destruct H as [<- | H]; [reflexivity |]). destruct H.
Qed.

(** X1. [makePcFileName] keeps the length of the name: every character is
    replaced by exactly one character. *)
Theorem makePcFileName_length (s : string) (traceFlag : bool) :
  String.length (makePcFileName s traceFlag) = String.length s.
Proof. rewrite makePcFileName_smap. apply smap_length. Qed.

(** X2. The names [makePcFileName] leaves unchanged are exactly the names
    without an illegal character. *)
Theorem makePcFileName_fixed_iff_clean (s : string) (traceFlag : bool) :
  makePcFileName s traceFlag = s ↔ clean s = true.
Proof.
  rewrite makePcFileName_smap. split.
  - intros <-. apply smap_sanitize_clean.
  - induction s as [|a s IH]; [done |].
    rewrite clean_cons. intros [Ha Hs]%andb_prop. simpl.
    apply negb_true_iff in Ha. by rewrite (sanitize_char_id _ Ha), (IH Hs).
Qed.

Lemma makePcFileName_fixed_iff_clean_witness :
  clean "Budget 2018 (final).xlsx" = true
  ∧ makePcFileName "Budget 2018 (final).xlsx" true
    = "Budget 2018 (final).xlsx".
Proof.
  split; [reflexivity |].
  apply (proj2 (makePcFileName_fixed_iff_clean "Budget 2018 (final).xlsx"
                  true)).
  reflexivity.
Defined.

(** X3. [makePcFileName] works character by character: the sanitized
    concatenation is the concatenation of the sanitized parts. *)
Theorem makePcFileName_append (s t : string) (traceFlag : bool) :
  makePcFileName (s +:+ t) traceFlag
  = makePcFileName s traceFlag +:+ makePcFileName t traceFlag.
Proof. rewrite !makePcFileName_smap. apply smap_append. Qed.

(** X4. [makePcFileName] is not injective: two names that differ only in
    which illegal character (or underscore) stands at some position get the
    same sanitized name. *)
Theorem makePcFileName_collision
    (s t : string) (c d : ascii) (traceFlag : bool)
    (Hc : In c ("_"%char :: illegal)) (Hd : In d ("_"%char :: illegal)) :
  makePcFileName (s +:+ String c t) traceFlag
  = makePcFileName (s +:+ String d t) traceFlag.
Proof.
  rewrite !makePcFileName_smap, !smap_append. simpl.
  by rewrite (sanitize_char_underscore _ Hc), (sanitize_char_underscore _ Hd).
Qed.

Lemma makePcFileName_collision_witness :
  In "/"%char ("_"%char :: illegal) ∧ In ":"%char ("_"%char :: illegal)
  ∧ makePcFileName ("Q1" +:+ String "/" "Q2") false
    = makePcFileName ("Q1" +:+ String ":" "Q2") false.
Proof.
  assert (H1 : In "/"%char ("_"%char :: illegal)) by (simpl; tauto).
  assert (H2 : In ":"%char ("_"%char :: illegal)) by (simpl; tauto).
  split; [exact H1 |]. split; [exact H2 |].
  apply (makePcFileName_collision "Q1" "Q2" "/" ":" false H1 H2).
Defined.

(** ** getMimeTypeAndSuffix, continued *)

Lemma first_match_cases table links :
  first_match table links = Mtas.mk "application/pdf" ".pdf"
  ∨ ∃ k sfx, In (k, sfx) table ∧ key_in k links = true
             ∧ first_match table links = Mtas.mk k sfx.
Proof.
  induction table as [|[k sfx] table IH]; simpl; [by left |].
  destruct (key_in k links) eqn:E.
  - right. exists k, sfx. auto.
  - destruct IH as [IH | (k' & sfx' & Hin & Hk & IH)]; [by left |].
    right. exists k', sfx'. auto.
Qed.

(** X5. With an export-links mapping the MIME type chosen is a key of that
    mapping, unless it is the PDF fallback, which is chosen without looking
    whether the mapping offers PDF. *)
Theorem getMimeTypeAndSuffix_available
    (driveFile : DriveFile.t) (links : gmap string string) (traceFlag : bool)
    (Hlinks : DriveFile.exportLinks driveFile = Some links) :
  getMimeTypeAndSuffix driveFile traceFlag = Mtas.mk "application/pdf" ".pdf"
  ∨ key_in (Mtas.mimeType (getMimeTypeAndSuffix driveFile traceFlag)) links
    = true.
Proof.
  rewrite (getMimeTypeAndSuffix_resolve_spec _ _ _ Hlinks).
  unfold resolve_spec.
  destruct (first_match_cases priority links) as [-> | (k & sfx & _ & Hk & ->)];
    [by left | by right].
Qed.

Lemma getMimeTypeAndSuffix_available_witness :
  DriveFile.exportLinks (DriveFile.mk "Empty" "id-e" "application/x" (Some ∅))
  = Some ∅
  ∧ (getMimeTypeAndSuffix
       (DriveFile.mk "Empty" "id-e" "application/x" (Some ∅)) false
     = Mtas.mk "application/pdf" ".pdf"
     ∨ key_in (Mtas.mimeType (getMimeTypeAndSuffix
                 (DriveFile.mk "Empty" "id-e" "application/x" (Some ∅)) false))
         ∅ = true).
Proof.
  split; [reflexivity |].
  apply (getMimeTypeAndSuffix_available
           (DriveFile.mk "Empty" "id-e" "application/x" (Some ∅)) ∅ false).
  reflexivity.
Defined.

(** The suffixes [getMimeTypeAndSuffix] can return. *)
Lemma getMimeTypeAndSuffix_suffixes driveFile traceFlag :
  In (Mtas.suffix (getMimeTypeAndSuffix driveFile traceFlag))
     [ ""; ".docx"; ".odt"; ".rtf"; ".xlsx"; ".ods"; ".csv"; ".tsv"; ".pptx";
       ".odp"; ".jpg"; ".png"; ".svg"; ".pdf" ].
Proof.
  unfold getMimeTypeAndSuffix.
  destruct (DriveFile.exportLinks driveFile) as [links|]; [| by left].
  repeat (match goal with
          | |- context [if ?b then _ else _] => destruct b
          end; [simpl; tauto |]).
  simpl. tauto.
Qed.

(** X6. The suffix returned is empty exactly when the file has no
    export-links mapping; a file with such a mapping always gets one of the
    thirteen dotted suffixes. *)
Theorem getMimeTypeAndSuffix_suffix_empty
    (driveFile : DriveFile.t) (traceFlag : bool) :
  Mtas.suffix (getMimeTypeAndSuffix driveFile traceFlag) = ""
  ↔ DriveFile.exportLinks driveFile = None.
Proof.
  split.
  - unfold getMimeTypeAndSuffix.
    destruct (DriveFile.exportLinks driveFile) as [links|]; [| done].
    repeat (match goal with
            | |- context [if ?b then _ else _] => destruct b
            end; [discriminate |]).
    discriminate.
  - intros H. unfold getMimeTypeAndSuffix. by rewrite H.
Qed.

Lemma getMimeTypeAndSuffix_suffix_empty_witness :
  DriveFile.exportLinks Sample.photo = None
  ∧ Mtas.suffix (getMimeTypeAndSuffix Sample.photo false) = "".
Proof.
  split; [reflexivity |].
  apply (proj2 (getMimeTypeAndSuffix_suffix_empty Sample.photo false)).
  reflexivity.
Defined.

(** ** getDownloadFileName, continued *)

Section NameFacts.
Implicit Types (s t u v e : string) (a c : ascii).

Lemma append_inv_tail s t u : s +:+ u = t +:+ u → s = t.
Proof.
  revert t. induction s as [|a s IH]; intros [|b t] H.
  - reflexivity.
  - exfalso. apply (f_equal String.length) in H.
    rewrite app_nil, app_cons in H. simpl in H.
    rewrite length_append in H. lia.
  - exfalso. apply (f_equal String.length) in H.
    rewrite app_nil, app_cons in H. simpl in H.
    rewrite length_append in H. lia.
  - rewrite !app_cons in H. injection H as -> H. f_equal. by apply IH.
Qed.

Lemma all_cons P a s : all P (String a s) = P a && all P s.
Proof. unfold all. simpl. by rewrite negb_orb, negb_involutive. Qed.

Lemma string_of_uint_digits d : all is_digit (NilEmpty.string_of_uint d) = true.
Proof. induction d; simpl; [reflexivity | by rewrite all_cons, IHd ..]. Qed.

Lemma str_positive p :
  Py.str (Z.pos p) = NilEmpty.string_of_uint (Pos.to_uint p).
Proof.
  unfold Py.str. simpl. pose proof (Unsigned.to_uint_nonnil p) as H.
  by destruct (Pos.to_uint p).
Qed.

Lemma str_digits i : 0 < i → all is_digit (Py.str i) = true.
Proof.
  destruct i as [|p|p]; [lia | | lia]. intros _.
  rewrite str_positive. apply string_of_uint_digits.
Qed.

Lemma str_inj i j : 0 < i → 0 < j → Py.str i = Py.str j → i = j.
Proof.
  destruct i as [|p|p]; [lia | | lia]. destruct j as [|q|q]; [lia | | lia].
  intros _ _. rewrite !str_positive. intros H.
  apply (f_equal NilEmpty.uint_of_string) in H.
  rewrite !NilEmpty.usu in H. injection H as H.
  by apply Unsigned.to_uint_inj in H as ->.
Qed.

(** A run of digits in front of a tail determines the digits. *)
Lemma digits_tail_inv s t e e' :
  all is_digit s = true → all is_digit t = true →
  tail_like e = true → tail_like e' = true →
  s +:+ e = t +:+ e' → s = t.
Proof.
  intros Hs Ht He He'. revert t Ht.
  induction s as [|a s IH]; intros [|b t] Ht H.
  - reflexivity.
  - exfalso. rewrite app_nil, app_cons in H. subst e.
    rewrite all_cons in Ht. apply andb_prop in Ht as [Hb _].
    simpl in He. by rewrite Hb in He.
  - exfalso. rewrite app_nil, app_cons in H. subst e'.
    rewrite all_cons in Hs. apply andb_prop in Hs as [Ha _].
    simpl in He'. by rewrite Ha in He'.
  - rewrite !app_cons in H. injection H as -> H.
    rewrite all_cons in Hs, Ht.
    apply andb_prop in Hs as [_ Hs]. apply andb_prop in Ht as [_ Ht].
    f_equal. by apply IH.
Qed.

Lemma index_part_inv i j e e' :
  0 ≤ i → 0 ≤ j → tail_like e = true → tail_like e' = true →
  index_part i +:+ e = index_part j +:+ e' → i = j.
Proof.
  intros Hi Hj He He'. unfold index_part.
  destruct (0 <? i) eqn:Ei, (0 <? j) eqn:Ej;
    try apply Z.ltb_lt in Ei; try apply Z.ltb_lt in Ej;
    try apply Z.ltb_ge in Ei; try apply Z.ltb_ge in Ej.
  - rewrite !append_assoc, !app_cons, !app_nil. intros [= H].
    apply str_inj; [done | done |].
    by apply (digits_tail_inv _ _ e e'); auto using str_digits.
  - rewrite app_cons, !app_nil. intros H. exfalso.
    subst e'. by simpl in He'.
  - rewrite app_cons, !app_nil. intros H. exfalso.
    subst e. by simpl in He.
  - lia.
Qed.

Lemma clean_no_sep os s : clean s = true → any (is_sep os) s = false.
Proof.
  induction s as [|a s IH]; [done |].
  rewrite clean_cons. intros [Ha Hs]%andb_prop. simpl.
  rewrite (IH Hs), orb_false_r. apply negb_true_iff in Ha.
  destruct (is_sep os a) eqn:E; [| done].
  rewrite <- Ha. symmetry. apply existsb_exists. exists a.
  split; [| apply Ascii.eqb_refl].
  unfold is_sep in E. destruct os; simpl in E.
  - rewrite orb_false_r in E. apply Ascii.eqb_eq in E as ->. simpl. tauto.
  - apply orb_prop in E as [E | E]; apply Ascii.eqb_eq in E as ->;
      simpl; tauto.
Qed.

(** What [os.path.splitext] returns as extension: nothing, or a dot
    followed by characters that are neither dots nor separators. *)
Lemma splitext_extension os title :
  snd (splitext os title) = ""
  ∨ ∃ v, snd (splitext os title) = String extsep v
         ∧ any (is_sep os) v = false.
Proof.
  rewrite splitext_spec.
  destruct (carries_extension os title) eqn:E; [| by left]. right.
  unfold carries_extension in E.
  destruct (last_split is_dot title) as [Hno | (u & c & v & -> & Hc & Hv)].
  { rewrite (split_last_dot_none _ (basename_any_false os _ _ Hno)) in E.
    discriminate. }
  rewrite (split_last_dot_found _ _ _ Hc Hv). cbn [snd].
  rewrite (is_dot_eq _ Hc). exists v. split; [done |].
  destruct (last_split (is_sep os) v) as [Hsep | (x & a & y & -> & Ha & Hy)];
    [done |].
  exfalso.
  replace (u +:+ String c (x +:+ String a y))
    with ((u +:+ String c x) +:+ String a y) in E
    by (by rewrite append_assoc, app_cons).
  rewrite (basename_found _ _ _ _ Ha Hy) in E.
  rewrite any_append in Hv. apply orb_false_elim in Hv as [_ Hv].
  simpl in Hv. apply orb_false_elim in Hv as [_ Hv].
  by rewrite (split_last_dot_none _ Hv) in E.
Qed.

Lemma resolver_suffix_tail_like driveFile traceFlag :
  tail_like (Mtas.suffix (getMimeTypeAndSuffix driveFile traceFlag)) = true.
Proof.
  pose proof (getMimeTypeAndSuffix_suffixes driveFile traceFlag) as H.
  simpl in H.
  repeat (destruct H as [<- | H]; [reflexivity |]). destruct H.
Qed.

Lemma resolver_suffix_no_sep os driveFile traceFlag :
  any (is_sep os)
    (Mtas.suffix (getMimeTypeAndSuffix driveFile traceFlag)) = false.
Proof.
  pose proof (getMimeTypeAndSuffix_suffixes driveFile traceFlag) as H.
  simpl in H.
  repeat (destruct H as [<- | H]; [by destruct os |]). destruct H.
Qed.

End NameFacts.

(** X7. Within a title group two entries visited with different indices are
    downloaded to different paths, whatever their export formats: the
    disambiguation index does keep files of one title apart. *)
Theorem getDownloadFileName_distinct
    (os : flavour) (hostRootDir driveName : string)
    (driveFile driveFile' : DriveFile.t) (i j : Z) (traceFlag : bool)
    (Hi : 0 ≤ i) (Hj : 0 ≤ j) (Hij : i ≠ j) :
  getDownloadFileName os hostRootDir driveName
    (Mtas.suffix (getMimeTypeAndSuffix driveFile traceFlag)) i traceFlag
  ≠ getDownloadFileName os hostRootDir driveName
      (Mtas.suffix (getMimeTypeAndSuffix driveFile' traceFlag)) j traceFlag.
Proof.
  rewrite !getDownloadFileName_unfold, !append_assoc. intros H.
  apply String.app_inj in H. rewrite !app_cons, !app_nil in H.
  injection H as H. apply String.app_inj in H.
  apply Hij. revert H.
  destruct (splitext_extension os driveName) as [-> | (v & -> & _)].
  - simpl. apply index_part_inv; auto using resolver_suffix_tail_like.
  - simpl. by apply index_part_inv.
Qed.

Lemma getDownloadFileName_distinct_witness :
  0 ≤ 0 ∧ 0 ≤ 1 ∧ 0 ≠ 1
  ∧ getDownloadFileName nt "out" "Budget"
      (Mtas.suffix (getMimeTypeAndSuffix Sample.sheet false)) 0 false
    ≠ getDownloadFileName nt "out" "Budget"
        (Mtas.suffix (getMimeTypeAndSuffix Sample.doc false)) 1 false.
Proof.
  split; [lia |]. split; [lia |]. split; [lia |].
  apply (getDownloadFileName_distinct nt "out" "Budget" Sample.sheet
           Sample.doc 0 1 false); lia.
Defined.

(** X8. The file name that [getDownloadFileName] puts behind
    [hostRootDir/] holds no path separator of the platform when the suffix
    holds none: the file lands in [hostRootDir] itself, never in a
    subdirectory, whatever the title. *)
Theorem getDownloadFileName_direct_child
    (os : flavour) (hostRootDir driveName suffix : string) (i : Z)
    (traceFlag : bool)
    (Hsuffix : any (is_sep os) suffix = false) :
  ∃ name,
    getDownloadFileName os hostRootDir driveName suffix i traceFlag
    = hostRootDir +:+ "/" +:+ name
    ∧ any (is_sep os) name = false.
Proof.
  rewrite getDownloadFileName_unfold. eexists. split; [reflexivity |].
  rewrite !any_append.
  rewrite (clean_no_sep os (makePcFileName _ _)),
    (clean_no_sep os (index_part i)).
  - destruct (splitext_extension os driveName) as [-> | (v & -> & Hv)];
      simpl; [done |].
    by rewrite is_sep_dot, Hv.
  - apply index_part_clean.
  - rewrite makePcFileName_smap. apply smap_sanitize_clean.
Qed.

Lemma getDownloadFileName_direct_child_witness :
  any (is_sep nt) ".docx" = false
  ∧ ∃ name,
      getDownloadFileName nt "out" "a/b\c.d/e" ".docx" 3 false
      = "out" +:+ "/" +:+ name
      ∧ any (is_sep nt) name = false.
Proof.
  split; [reflexivity |].
  apply (getDownloadFileName_direct_child nt "out" "a/b\c.d/e" ".docx" 3
           false).
  reflexivity.
Defined.

(** ** The walk, continued *)

Section Adds.
Context (os : flavour) (w : world) (traceFlag : bool).
Implicit Types (P Q : event → Prop) (a b : run).

Lemma adds_skip P : adds P skip.
Proof. intros h. exists []. by rewrite app_nil_r. Qed.

Lemma adds_emit P e : P e → adds P (emit e).
Proof. intros He h. exists [e]. split; [done | by constructor]. Qed.

Lemma adds_seq P a b : adds P a → adds P b → adds P (a >> b).
Proof.
  intros Ha Hb h. destruct (Ha h) as (l1 & E1 & H1). unfold seq.
  destruct (a h) as [h1 []]; simpl in *; subst h1; [| by exists l1 ..].
  destruct (Hb (h ++ l1)) as (l2 & E2 & H2).
  exists (l1 ++ l2). rewrite E2, app_assoc.
  split; [done | by apply Forall_app].
Qed.

Lemma adds_when P c a : adds P a → adds P (when c a).
Proof. destruct c; [done | intros _; apply adds_skip]. Qed.

Lemma adds_mono P Q a : (∀ e, P e → Q e) → adds P a → adds Q a.
Proof.
  intros HPQ Ha h. destruct (Ha h) as (l & E & H).
  exists l. split; [done |]. eapply Forall_impl; eauto.
Qed.

Lemma adds_print P line : P (EPrint line) → adds P (print line).
Proof. apply adds_emit. Qed.

Lemma adds_makedirs P path :
  (∀ ok, P (EMakedirs path ok)) → adds P (os_makedirs w path).
Proof.
  intros HP h. exists [EMakedirs path (makedirs_ok w h path)].
  split; [done | by constructor].
Qed.

Lemma adds_try P driveFile filename mimetype body handler :
  (∀ ok, P (EGetContentFile driveFile filename mimetype ok)) →
  adds P body → adds P handler →
  adds P (try_GetContentFile w driveFile filename mimetype body handler).
Proof.
  intros HP Hb Hh h. unfold try_GetContentFile.
  destruct (GetContentFile_ok w h driveFile filename mimetype).
  - destruct (Hb (h ++ [EGetContentFile driveFile filename mimetype true]))
      as (l & E & H).
    exists (EGetContentFile driveFile filename mimetype true :: l).
    rewrite E, <- app_assoc. split; [done | by constructor].
  - destruct (Hh (h ++ [EGetContentFile driveFile filename mimetype false]))
      as (l & E & H).
    exists (EGetContentFile driveFile filename mimetype false :: l).
    rewrite E, <- app_assoc. split; [done | by constructor].
Qed.

(** An invariant of the events carries over from the body of the loops to
    the loops. *)
Lemma adds_for_driveFiles P self hostRootDir driveName driveFiles i :
  (∀ driveFile j, i ≤ j →
     adds P (visit os w traceFlag self hostRootDir driveName driveFile j)) →
  adds P (for_driveFiles os w traceFlag self hostRootDir driveName
            driveFiles i).
Proof.
  revert i. induction driveFiles as [|x l IH]; intros i Hvisit;
    [apply adds_skip |].
  cbn [for_driveFiles]. apply adds_seq; [apply Hvisit; lia |].
  apply IH. intros driveFile j Hj. apply Hvisit. lia.
Qed.

Lemma adds_for_file_list P self hostRootDir file_list :
  (∀ q, P (EListFile q)) → (∀ line, P (EPrint line)) →
  (∀ driveName driveFile j, 0 ≤ j →
     adds P (visit os w traceFlag self hostRootDir driveName driveFile j)) →
  adds P (for_file_list os w traceFlag self hostRootDir file_list).
Proof.
  intros Hq Hp Hvisit.
  induction file_list as [|f l IH]; [apply adds_skip |].
  cbn [for_file_list]. apply adds_seq; [| apply IH].
  unfold for_f, GetList.
  repeat first [ apply adds_seq | apply adds_when | apply adds_print
               | apply adds_emit | apply adds_for_driveFiles ]; auto.
Qed.

End Adds.

Lemma starts_with_append pre s : starts_with pre (pre +:+ s) = true.
Proof.
  induction pre as [|a pre IH]; [by destruct s |].
  rewrite app_cons. simpl. by rewrite Ascii.eqb_refl.
Qed.

Lemma starts_with_shorter pre more s :
  starts_with (pre +:+ more) s = true → starts_with pre s = true.
Proof.
  revert s. induction pre as [|a pre IH]; intros s; [by destruct s |].
  rewrite app_cons. destruct s as [|b s]; simpl; [done |].
  intros [-> H]%andb_prop. by rewrite (IH _ H).
Qed.

Lemma under_deeper root name e : under (root +:+ "/" +:+ name) e → under root e.
Proof.
  assert (E : (root +:+ "/" +:+ name) +:+ "/"
              = (root +:+ "/") +:+ (name +:+ "/"))
    by (by rewrite !append_assoc).
  destruct e; simpl; try done; rewrite E; apply starts_with_shorter.
Qed.

Lemma visit_under os w traceFlag self hostRootDir driveName driveFile i :
  (∀ dir driveFolderId, adds (under dir) (self dir driveFolderId)) →
  adds (under hostRootDir)
    (visit os w traceFlag self hostRootDir driveName driveFile i).
Proof.
  intros Hself. unfold visit.
  destruct (String.eqb _ folder_mimeType).
  - apply adds_seq; [| apply adds_seq].
    + apply adds_makedirs. intros ok. simpl.
      rewrite <- append_assoc. apply starts_with_append.
    + apply adds_when, adds_seq; by apply adds_print.
    + eapply adds_mono; [| apply Hself]. apply under_deeper.
  - destruct (String.eqb _ form_mimeType).
    + apply adds_seq; by apply adds_print.
    + apply adds_try.
      * intros ok. simpl. rewrite getDownloadFileName_unfold.
        rewrite <- append_assoc. apply starts_with_append.
      * apply adds_when, adds_seq; by apply adds_print.
      * apply adds_seq; by apply adds_print.
Qed.

Lemma adds_under_walk os w fuel hostRootDir driveRootDir traceFlag :
  adds (under hostRootDir)
    (downloadAllFilesInFolder os w fuel hostRootDir driveRootDir traceFlag).
Proof.
  revert hostRootDir driveRootDir.
  induction fuel as [|fuel IH]; intros hostRootDir driveRootDir.
  - intros h. exists []. by rewrite app_nil_r.
  - cbn [downloadAllFilesInFolder]. unfold GetList.
    apply adds_seq; [by apply adds_emit |].
    apply adds_for_file_list; [done | done |].
    intros driveName driveFile j _. apply visit_under.
    intros dir driveFolderId. exact (IH dir driveFolderId).
Qed.

(** X9. Everything a traversal creates or downloads lies under the directory
    it was given: every path of an [os.makedirs] or [GetContentFile] call
    starts with [hostRootDir/], at any depth of the recursion. *)
Theorem downloadAllFilesInFolder_under
    (os : flavour) (w : world) (fuel : nat)
    (hostRootDir driveRootDir : string) (traceFlag : bool)
    (h : list event) :
  ∃ added,
    fst (downloadAllFilesInFolder os w fuel hostRootDir driveRootDir
           traceFlag h) = h ++ added
    ∧ Forall
        (λ e, match e with
              | EMakedirs path _ =>
                  starts_with (hostRootDir +:+ "/") path = true
              | EGetContentFile _ path _ _ =>
                  starts_with (hostRootDir +:+ "/") path = true
              | _ => True
              end) added.
Proof. apply adds_under_walk. Qed.

Lemma visit_resolved os w traceFlag self hostRootDir driveName driveFile i :
  (∀ dir driveFolderId, adds (resolved traceFlag) (self dir driveFolderId)) →
  adds (resolved traceFlag)
    (visit os w traceFlag self hostRootDir driveName driveFile i).
Proof.
  intros Hself. unfold visit.
  destruct (String.eqb _ folder_mimeType) eqn:Efolder.
  - apply adds_seq; [| apply adds_seq].
    + by apply adds_makedirs.
    + apply adds_when, adds_seq; by apply adds_print.
    + apply Hself.
  - destruct (String.eqb _ form_mimeType) eqn:Eform.
    + apply adds_seq; by apply adds_print.
    + apply adds_try.
      * intros ok. simpl. split; [| done].
        by split; apply String.eqb_neq.
      * apply adds_when, adds_seq; by apply adds_print.
      * apply adds_seq; by apply adds_print.
Qed.

(** X10. A traversal never asks for the content of a folder or of a form,
    and every download it issues requests the MIME type that
    [getMimeTypeAndSuffix] chose for that file. *)
Theorem downloadAllFilesInFolder_resolved
    (os : flavour) (w : world) (fuel : nat)
    (hostRootDir driveRootDir : string) (traceFlag : bool)
    (h : list event) :
  ∃ added,
    fst (downloadAllFilesInFolder os w fuel hostRootDir driveRootDir
           traceFlag h) = h ++ added
    ∧ Forall
        (λ e, match e with
              | EGetContentFile driveFile _ mimetype _ =>
                  DriveFile.mimeType driveFile ≠ folder_mimeType
                  ∧ DriveFile.mimeType driveFile ≠ form_mimeType
                  ∧ mimetype
                    = Mtas.mimeType (getMimeTypeAndSuffix driveFile traceFlag)
              | _ => True
              end) added.
Proof.
  assert (H : adds (resolved traceFlag)
                (downloadAllFilesInFolder os w fuel hostRootDir driveRootDir
                   traceFlag)).
  { revert hostRootDir driveRootDir.
    induction fuel as [|fuel IH]; intros hostRootDir driveRootDir.
    - intros h'. exists []. by rewrite app_nil_r.
    - cbn [downloadAllFilesInFolder]. unfold GetList.
      apply adds_seq; [by apply adds_emit |].
      apply adds_for_file_list; [done | done |].
      intros driveName driveFile j _. apply visit_resolved.
      intros dir driveFolderId. exact (IH dir driveFolderId). }
  destruct (H h) as (added & E & Hall). exists added. split; [done |].
  eapply Forall_impl; [exact Hall |].
  intros [| | |driveFile filename mimetype ok| | |]; simpl; try done.
  by intros [[? ?] ?].
Qed.

Lemma visit_not_folder_done os w traceFlag self hostRootDir driveName
    driveFile i h :
  DriveFile.mimeType driveFile ≠ folder_mimeType →
  snd (visit os w traceFlag self hostRootDir driveName driveFile i h) = Done.
Proof.
  intros Hfolder%String.eqb_neq. unfold visit. rewrite Hfolder.
  destruct (String.eqb _ form_mimeType); [reflexivity |].
  unfold try_GetContentFile.
  by destruct (GetContentFile_ok _ _ _ _ _), traceFlag.
Qed.

Lemma for_driveFiles_no_folder_done os w traceFlag self hostRootDir driveName
    driveFiles i h :
  (∀ driveFile, In driveFile driveFiles →
     DriveFile.mimeType driveFile ≠ folder_mimeType) →
  snd (for_driveFiles os w traceFlag self hostRootDir driveName driveFiles
         i h) = Done.
Proof.
  revert i h. induction driveFiles as [|x l IH]; intros i h Hall;
    [reflexivity |].
  cbn [for_driveFiles]. unfold seq.
  pose proof (visit_not_folder_done os w traceFlag self hostRootDir driveName
                x i h (Hall x (or_introl eq_refl))) as Hx.
  destruct (visit _ _ _ _ _ _ _ _ _) as [h1 st]. simpl in Hx. subst st.
  apply IH. intros driveFile Hin. apply Hall. by right.
Qed.

(** X11. A container none of whose title groups holds a folder is always
    traversed to the end: whatever downloads fail, the traversal ends
    normally, and one nested call is all it needs. *)
Theorem flat_container_completes
    (os : flavour) (w : world) (fuel : nat)
    (hostRootDir driveRootDir : string) (traceFlag : bool) (h : list event)
    (Hflat :
       ∀ f, In f (ListFile w (children_query driveRootDir)) →
       ∀ driveFile,
         In driveFile (ListFile w (title_query (DriveFile.title f))) →
         DriveFile.mimeType driveFile ≠ folder_mimeType) :
  snd (downloadAllFilesInFolder os w (S fuel) hostRootDir driveRootDir
         traceFlag h) = Done.
Proof.
  cbn [downloadAllFilesInFolder]. unfold GetList. rewrite seq_emit.
  fold (children_query driveRootDir).
  generalize (h ++ [EListFile (children_query driveRootDir)]). clear h.
  induction (ListFile w (children_query driveRootDir)) as [|f l IH];
    intros h; [reflexivity |].
  cbn [for_file_list]. unfold seq at 1.
  assert (Hf : ∀ h0, snd (for_f os w traceFlag
                            (λ newFolderName driveFolderId,
                               downloadAllFilesInFolder os w fuel
                                 newFolderName driveFolderId traceFlag)
                            hostRootDir f h0) = Done).
  { intros h0. rewrite for_f_unfold. unfold processing_notice.
    destruct traceFlag; simpl; unfold seq; simpl;
      apply for_driveFiles_no_folder_done, Hflat; by left. }
  specialize (Hf h). destruct (for_f _ _ _ _ _ _ _) as [h1 st].
  simpl in Hf. subst st. apply IH. intros f' Hf'. apply Hflat. by right.
Qed.

Lemma flat_container_completes_witness :
  (∀ f, In f (ListFile (Store.world_of Drives.flaky ["id-photo"])
                (children_query "root")) →
   ∀ driveFile,
     In driveFile (ListFile (Store.world_of Drives.flaky ["id-photo"])
                     (title_query (DriveFile.title f))) →
     DriveFile.mimeType driveFile ≠ folder_mimeType)
  ∧ snd (downloadAllFilesInFolder posix
           (Store.world_of Drives.flaky ["id-photo"]) 1 "out" "root" true [])
    = Done.
Proof.
  assert (Hflat :
    ∀ f, In f (ListFile (Store.world_of Drives.flaky ["id-photo"])
                 (children_query "root")) →
    ∀ driveFile,
      In driveFile (ListFile (Store.world_of Drives.flaky ["id-photo"])
                      (title_query (DriveFile.title f))) →
      DriveFile.mimeType driveFile ≠ folder_mimeType).
  { intros f [<- | [<- | [<- | []]]] driveFile [<- | []]; discriminate. }
  split; [exact Hflat |].
  apply (flat_container_completes posix
           (Store.world_of Drives.flaky ["id-photo"]) 0 "out" "root" true []
           Hflat).
Defined.

(** *** What the trace flag changes *)

Section Alike.
Context (os : flavour) (w : world) (Hdeaf : deaf w).
Implicit Types (a b : run).

Lemma actions_app h h' : actions (h ++ h') = actions h ++ actions h'.
Proof. apply List.filter_app. Qed.

Lemma silent_skip : silent skip.
Proof. by intros h. Qed.

Lemma silent_print line : silent (print line).
Proof.
  intros h. unfold print, emit. simpl.
  by rewrite actions_app, app_nil_r.
Qed.

Lemma silent_seq a b : silent a → silent b → silent (a >> b).
Proof.
  intros Ha Hb h. destruct (Ha h) as [E1 S1]. unfold seq.
  destruct (a h) as [h1 st]. simpl in *. subst st.
  destruct (Hb h1) as [E2 S2]. by rewrite E2, E1.
Qed.

Lemma silent_when c a : silent a → silent (when c a).
Proof. destruct c; [done | intros _; apply silent_skip]. Qed.

Lemma silent_alike a b : silent a → silent b → alike a b.
Proof.
  intros Ha Hb h h' E.
  destruct (Ha h) as [-> ->], (Hb h') as [-> ->]. done.
Qed.

Lemma alike_seq a a' b b' : alike a a' → alike b b' → alike (a >> b) (a' >> b').
Proof.
  intros Ha Hb h h' E. destruct (Ha h h' E) as [E1 S1]. unfold seq.
  destruct (a h) as [h1 st], (a' h') as [h1' st']. simpl in *. subst st'.
  destruct st; [by apply Hb | done | done].
Qed.

Lemma alike_emit e : alike (emit e) (emit e).
Proof.
  intros h h' E. unfold emit. simpl. by rewrite !actions_app, E.
Qed.

Lemma alike_skip : alike skip skip.
Proof. by intros h h' E. Qed.

Lemma alike_makedirs path : alike (os_makedirs w path) (os_makedirs w path).
Proof.
  intros h h' E. unfold os_makedirs. simpl.
  rewrite (proj1 (Hdeaf h h' E) path). by rewrite !actions_app, E.
Qed.

Lemma alike_try driveFile filename mimetype body body' handler handler' :
  alike body body' → alike handler handler' →
  alike (try_GetContentFile w driveFile filename mimetype body handler)
        (try_GetContentFile w driveFile filename mimetype body' handler').
Proof.
  intros Hb Hh h h' E. unfold try_GetContentFile.
  rewrite (proj2 (Hdeaf h h' E) driveFile filename mimetype).
  destruct (GetContentFile_ok w h' driveFile filename mimetype);
    [apply Hb | apply Hh]; by rewrite !actions_app, E.
Qed.

Lemma alike_visit traceFlag traceFlag' self self' hostRootDir driveName
    driveFile i :
  (∀ dir driveFolderId,
     alike (self dir driveFolderId) (self' dir driveFolderId)) →
  alike (visit os w traceFlag self hostRootDir driveName driveFile i)
        (visit os w traceFlag' self' hostRootDir driveName driveFile i).
Proof.
  intros Hself. unfold visit.
  destruct (String.eqb _ folder_mimeType).
  - apply alike_seq; [apply alike_makedirs |].
    apply alike_seq; [| apply Hself].
    apply silent_alike;
      apply silent_when, silent_seq; apply silent_print.
  - destruct (String.eqb _ form_mimeType).
    + apply silent_alike; apply silent_seq; apply silent_print.
    + apply alike_try; apply silent_alike;
        repeat first [ apply silent_when | apply silent_seq
                     | apply silent_print ].
Qed.

Lemma alike_for_driveFiles traceFlag traceFlag' self self' hostRootDir
    driveName driveFiles i :
  (∀ dir driveFolderId,
     alike (self dir driveFolderId) (self' dir driveFolderId)) →
  alike
    (for_driveFiles os w traceFlag self hostRootDir driveName driveFiles i)
    (for_driveFiles os w traceFlag' self' hostRootDir driveName driveFiles i).
Proof.
  intros Hself. revert i.
  induction driveFiles as [|x l IH]; intros i; [apply alike_skip |].
  cbn [for_driveFiles]. apply alike_seq; [by apply alike_visit | apply IH].
Qed.

Lemma alike_for_file_list traceFlag traceFlag' self self' hostRootDir
    file_list :
  (∀ dir driveFolderId,
     alike (self dir driveFolderId) (self' dir driveFolderId)) →
  alike (for_file_list os w traceFlag self hostRootDir file_list)
        (for_file_list os w traceFlag' self' hostRootDir file_list).
Proof.
  intros Hself.
  induction file_list as [|f l IH]; [apply alike_skip |].
  cbn [for_file_list]. apply alike_seq; [| apply IH].
  unfold for_f, GetList. apply alike_seq.
  - apply silent_alike;
      apply silent_when, silent_seq; apply silent_print.
  - apply alike_seq; [apply alike_emit |].
    by apply alike_for_driveFiles.
Qed.

Lemma alike_walk traceFlag traceFlag' fuel hostRootDir driveRootDir :
  alike
    (downloadAllFilesInFolder os w fuel hostRootDir driveRootDir traceFlag)
    (downloadAllFilesInFolder os w fuel hostRootDir driveRootDir traceFlag').
Proof.
  revert hostRootDir driveRootDir.
  induction fuel as [|fuel IH]; intros hostRootDir driveRootDir.
  - by intros h h' E.
  - cbn [downloadAllFilesInFolder]. unfold GetList.
    apply alike_seq; [apply alike_emit |].
    apply alike_for_file_list. intros dir driveFolderId. apply IH.
Qed.

End Alike.

Lemma existsb_actions (P : event → bool) h :
  (∀ line, P (EPrint line) = false) →
  existsb P (actions h) = existsb P h.
Proof.
  intros HP. induction h as [|e h IH]; [done |].
  destruct e; simpl; rewrite ?IH, ?HP; reflexivity.
Qed.

(** The reference host does not listen to what is printed. *)
Lemma world_of_deaf st failing : deaf (Store.world_of st failing).
Proof.
  intros h h' E. split; [| done].
  intros path. simpl.
  rewrite <- (existsb_actions _ h), <- (existsb_actions _ h'), E; done.
Qed.

(** X12. In a world whose file system and downloads do not depend on what
    was printed, the trace flag changes the printed lines and nothing else:
    with and without it a traversal issues the same queries, makes the same
    directories, performs the same downloads with the same outcomes, and
    ends the same way. *)
Theorem traceFlag_only_prints
    (os : flavour) (w : world) (fuel : nat)
    (hostRootDir driveRootDir : string) (h : list event)
    (Hdeaf : deaf w) :
  actions (fst (downloadAllFilesInFolder os w fuel hostRootDir driveRootDir
                  true h))
  = actions (fst (downloadAllFilesInFolder os w fuel hostRootDir
                    driveRootDir false h))
  ∧ snd (downloadAllFilesInFolder os w fuel hostRootDir driveRootDir true h)
    = snd (downloadAllFilesInFolder os w fuel hostRootDir driveRootDir
             false h).
Proof. by apply alike_walk. Qed.

Lemma traceFlag_only_prints_witness :
  deaf (Store.world_of Drives.scattered ["id-r3"])
  ∧ actions (fst (downloadAllFilesInFolder posix
                    (Store.world_of Drives.scattered ["id-r3"]) 2
                    "out" "root" true []))
    = actions (fst (downloadAllFilesInFolder posix
                      (Store.world_of Drives.scattered ["id-r3"]) 2
                      "out" "root" false []))
  ∧ snd (downloadAllFilesInFolder posix
           (Store.world_of Drives.scattered ["id-r3"]) 2 "out" "root" true [])
    = snd (downloadAllFilesInFolder posix
             (Store.world_of Drives.scattered ["id-r3"]) 2 "out" "root"
             false []).
Proof.
  split; [apply world_of_deaf |].
  apply (traceFlag_only_prints posix
           (Store.world_of Drives.scattered ["id-r3"]) 2 "out" "root" []
           (world_of_deaf Drives.scattered ["id-r3"])).
Defined.

(** *** downloadEverythingFromDrive *)



(** A whole run on a drive that holds one photo. *)
Example downloadEverythingFromDrive_run :
  downloadEverythingFromDrive posix Bootstrap.granted
    (Store.world_of [Store.mk Sample.photo ["root"] false] []) 1 "out" false
    []
  = ([ EGoogleAuth true; ELocalWebserverAuth true; EMakedirs "out" true;
       EGoogleDrive;
       EListFile "'root' in parents and trashed=false";
       EListFile "title='beach.jpeg'";
       EGetContentFile Sample.photo "out/beach.jpeg" "image/jpeg" true ],
     Done).
Proof. reflexivity. Qed.

(** *** The title query *)

Lemma escape_head t v : Py.replace "'" "\'" t ≠ String "'" v.
Proof.
  destruct t as [|a t]; [done |]. simpl.
  destruct (Ascii.eqb a "'") eqn:E; [done |].
  intros [= -> _]. by rewrite Ascii.eqb_refl in E.
Qed.

Lemma escape_inj t t' :
  Py.replace "'" "\'" t = Py.replace "'" "\'" t' → t = t'.
Proof.
  revert t'. induction t as [|a t IH]; intros [|b t'].
  - done.
  - simpl. by destruct (Ascii.eqb b "'").
  - simpl. by destruct (Ascii.eqb a "'").
  - simpl.
    destruct (Ascii.eqb a "'") eqn:Ea, (Ascii.eqb b "'") eqn:Eb.
    + apply Ascii.eqb_eq in Ea as ->, Eb as ->.
      rewrite !app_cons, !app_nil. intros [= H]. f_equal. by apply IH.
    + rewrite !app_cons, !app_nil. intros [= _ H].
      symmetry in H. by apply escape_head in H.
    + rewrite !app_cons, !app_nil. intros [= _ H].
      by apply escape_head in H.
    + intros [= -> H]. f_equal. by apply IH.
Qed.

(** X14. The title query keeps titles apart: two different titles never
    give the same query string, apostrophes or not. *)
Theorem title_query_distinct (driveName driveName' : string)
    (Hne : driveName ≠ driveName') :
  "title='" +:+ Py.replace "'" "\'" driveName +:+ "'"
  ≠ "title='" +:+ Py.replace "'" "\'" driveName' +:+ "'".
Proof.
  intros H. apply Hne.
  apply String.app_inj in H. apply append_inv_tail in H.
  by apply escape_inj.
Qed.

Lemma title_query_distinct_witness :
  "it's" ≠ "it\'s"
  ∧ "title='" +:+ Py.replace "'" "\'" "it's" +:+ "'"
    ≠ "title='" +:+ Py.replace "'" "\'" "it\'s" +:+ "'".
Proof.
  assert (Hne : "it's" ≠ "it\'s") by discriminate.
  split; [exact Hne |].
  apply (title_query_distinct "it's" "it\'s" Hne).
Defined.

(** *** A folder that holds its namesake *)

Section NeverDone.
Context (os : flavour) (w : world) (traceFlag : bool).
Implicit Types (a b : run).

Lemma never_done_seq_l a b : never_done a → never_done (a >> b).
Proof.
  intros Ha h. specialize (Ha h). unfold seq.
  by destruct (a h) as [h1 []].
Qed.

Lemma never_done_seq_r a b : never_done b → never_done (a >> b).
Proof.
  intros Hb h. unfold seq.
  destruct (a h) as [h1 []]; [apply Hb | done | done].
Qed.

Lemma never_done_for_driveFiles self hostRootDir driveName driveFiles x i :
  In x driveFiles →
  (∀ j, never_done (visit os w traceFlag self hostRootDir driveName x j)) →
  never_done
    (for_driveFiles os w traceFlag self hostRootDir driveName driveFiles i).
Proof.
  intros Hin Hx. revert i.
  induction driveFiles as [|y l IH]; intros i; [destruct Hin |].
  cbn [for_driveFiles]. destruct Hin as [-> | Hin].
  - apply never_done_seq_l, Hx.
  - apply never_done_seq_r, IH, Hin.
Qed.

Lemma never_done_for_file_list self hostRootDir file_list f :
  In f file_list →
  never_done (for_f os w traceFlag self hostRootDir f) →
  never_done (for_file_list os w traceFlag self hostRootDir file_list).
Proof.
  intros Hin Hf.
  induction file_list as [|y l IH]; [destruct Hin |].
  cbn [for_file_list]. destruct Hin as [-> | Hin].
  - by apply never_done_seq_l.
  - apply never_done_seq_r, IH, Hin.
Qed.

End NeverDone.

(** X15. The title query is not confined to the container, so a folder that
    has a child bearing its own title is visited again inside itself: the
    traversal of such a folder never ends normally.  It either stops with the
    exception of an [os.makedirs], or keeps recursing, whatever depth of
    recursion is allowed. *)
Theorem namesake_child_never_completes
    (os : flavour) (w : world) (traceFlag : bool)
    (folder child : DriveFile.t)
    (Hfolder : DriveFile.mimeType folder = folder_mimeType)
    (Hchild :
       In child (ListFile w ("'" +:+ DriveFile.id folder
                             +:+ "' in parents and trashed=false")))
    (Htitle : DriveFile.title child = DriveFile.title folder)
    (Hgroup :
       In folder
         (ListFile w ("title='"
                      +:+ Py.replace "'" "\'" (DriveFile.title folder)
                      +:+ "'"))) :
  ∀ fuel hostRootDir h,
    snd (downloadAllFilesInFolder os w fuel hostRootDir (DriveFile.id folder)
           traceFlag h) ≠ Done.
Proof.
  induction fuel as [|fuel IH]; intros hostRootDir; [done |].
  change (never_done
            (downloadAllFilesInFolder os w (S fuel) hostRootDir
               (DriveFile.id folder) traceFlag)).
  cbn [downloadAllFilesInFolder]. unfold GetList.
  apply never_done_seq_r.
  apply (never_done_for_file_list _ _ _ _ _ _ child Hchild).
  unfold for_f, GetList. rewrite Htitle.
  do 2 apply never_done_seq_r.
  apply (never_done_for_driveFiles _ _ _ _ _ _ _ folder _ Hgroup).
  intros j. unfold visit. rewrite Hfolder, String.eqb_refl.
  do 2 apply never_done_seq_r. intros h. apply IH.
Qed.

Lemma namesake_child_never_completes_witness :
  DriveFile.mimeType Nested.outer = folder_mimeType
  ∧ In Nested.inner
      (ListFile (Store.world_of Nested.store [])
         ("'" +:+ DriveFile.id Nested.outer
          +:+ "' in parents and trashed=false"))
  ∧ DriveFile.title Nested.inner = DriveFile.title Nested.outer
  ∧ In Nested.outer
      (ListFile (Store.world_of Nested.store [])
         ("title='" +:+ Py.replace "'" "\'" (DriveFile.title Nested.outer)
          +:+ "'"))
  ∧ snd (downloadAllFilesInFolder posix (Store.world_of Nested.store []) 5
           "out/Photos" (DriveFile.id Nested.outer) false [])
    ≠ Done.
Proof.
  assert (Hchild :
    In Nested.inner
      (ListFile (Store.world_of Nested.store [])
         ("'" +:+ DriveFile.id Nested.outer
          +:+ "' in parents and trashed=false"))) by (by left).
  assert (Hgroup :
    In Nested.outer
      (ListFile (Store.world_of Nested.store [])
         ("title='" +:+ Py.replace "'" "\'" (DriveFile.title Nested.outer)
          +:+ "'"))) by (by left).
  split; [reflexivity |]. split; [exact Hchild |].
  split; [reflexivity |]. split; [exact Hgroup |].
  apply (namesake_child_never_completes posix
           (Store.world_of Nested.store []) false Nested.outer Nested.inner
           eq_refl Hchild eq_refl Hgroup 5%nat "out/Photos" []).
Defined.

(** The run on the nested store: the outer folder is entered again and
    again. *)
Example nested_run :
  downloadAllFilesInFolder posix (Store.world_of Nested.store []) 3
    "out" "root" false []
  = ([ EListFile "'root' in parents and trashed=false";
       EListFile "title='Photos'";
       EMakedirs "out/Photos" true;
       EListFile "'id-outer' in parents and trashed=false";
       EListFile "title='Photos'";
       EMakedirs "out/Photos/Photos" true;
       EListFile "'id-outer' in parents and trashed=false";
       EListFile "title='Photos'";
       EMakedirs "out/Photos/Photos/Photos" true ],
     OutOfFuel).
Proof. reflexivity. Qed.

(** *** No regular file is left out *)

Lemma downloaded_app h h' : downloaded (h ++ h') = downloaded h ++ downloaded h'.
Proof. apply flat_map_app. Qed.

Lemma visit_downloaded os w traceFlag self hostRootDir driveName driveFile
    i h :
  DriveFile.mimeType driveFile ≠ folder_mimeType →
  downloaded (fst (visit os w traceFlag self hostRootDir driveName
                     driveFile i h))
  = downloaded h ++ (if is_regular driveFile then [driveFile] else []).
Proof.
  intros Hfolder%String.eqb_neq. unfold visit, is_regular.
  rewrite Hfolder.
  destruct (String.eqb _ form_mimeType); simpl.
  - by rewrite !downloaded_app, !app_nil_r.
  - unfold try_GetContentFile.
    destruct (GetContentFile_ok _ _ _ _ _), traceFlag; simpl;
      rewrite ?downloaded_app; simpl; by rewrite ?app_nil_r.
Qed.

Lemma for_driveFiles_downloaded os w traceFlag self hostRootDir driveName
    driveFiles i h :
  (∀ driveFile, In driveFile driveFiles →
     DriveFile.mimeType driveFile ≠ folder_mimeType) →
  downloaded (fst (for_driveFiles os w traceFlag self hostRootDir driveName
                     driveFiles i h))
  = downloaded h ++ List.filter is_regular driveFiles.
Proof.
  revert i h. induction driveFiles as [|x l IH]; intros i h Hall.
  - simpl. by rewrite app_nil_r.
  - cbn [for_driveFiles List.filter]. unfold seq.
    assert (Hx : DriveFile.mimeType x ≠ folder_mimeType)
      by (apply Hall; by left).
    pose proof (visit_not_folder_done os w traceFlag self hostRootDir
                  driveName x i h Hx) as Hdone.
    pose proof (visit_downloaded os w traceFlag self hostRootDir driveName
                  x i h Hx) as Hdl.
    destruct (visit _ _ _ _ _ _ _ _ _) as [h1 st]. simpl in *. subst st.
    rewrite IH by (intros y Hy; apply Hall; by right).
    rewrite Hdl, <- app_assoc. by destruct (is_regular x).
Qed.

(** X16. In the traversal of a container whose title groups hold no folder,
    no regular file is left out and none is downloaded out of turn: the
    files on which a download is attempted are, group after group in listing
    order, exactly the entries of the group that are neither folder nor
    form, whether earlier downloads failed or not. *)
Theorem flat_container_downloads_all
    (os : flavour) (w : world) (fuel : nat)
    (hostRootDir driveRootDir : string) (traceFlag : bool) (h : list event)
    (Hflat :
       ∀ f, In f (ListFile w (children_query driveRootDir)) →
       ∀ driveFile,
         In driveFile (ListFile w (title_query (DriveFile.title f))) →
         DriveFile.mimeType driveFile ≠ folder_mimeType) :
  downloaded (fst (downloadAllFilesInFolder os w (S fuel) hostRootDir
                     driveRootDir traceFlag h))
  = downloaded h
    ++ concat
         (map (λ f, List.filter is_regular
                      (ListFile w (title_query (DriveFile.title f))))
            (ListFile w (children_query driveRootDir))).
Proof.
  cbn [downloadAllFilesInFolder]. unfold GetList. rewrite seq_emit.
  fold (children_query driveRootDir).
  replace (downloaded h)
    with (downloaded (h ++ [EListFile (children_query driveRootDir)]))
    by (rewrite downloaded_app; simpl; by rewrite app_nil_r).
  generalize (h ++ [EListFile (children_query driveRootDir)]). clear h.
  induction (ListFile w (children_query driveRootDir)) as [|f l IH];
    intros h; [simpl; by rewrite app_nil_r |].
  cbn [for_file_list map concat]. unfold seq at 1.
  assert (Hgroup : ∀ driveFile,
            In driveFile (ListFile w (title_query (DriveFile.title f))) →
            DriveFile.mimeType driveFile ≠ folder_mimeType)
    by (apply Hflat; by left).
  assert (Hf : ∀ h0,
    snd (for_f os w traceFlag
           (λ newFolderName driveFolderId,
              downloadAllFilesInFolder os w fuel newFolderName driveFolderId
                traceFlag) hostRootDir f h0) = Done
    ∧ downloaded (fst (for_f os w traceFlag
           (λ newFolderName driveFolderId,
              downloadAllFilesInFolder os w fuel newFolderName driveFolderId
                traceFlag) hostRootDir f h0))
      = downloaded h0
        ++ List.filter is_regular
             (ListFile w (title_query (DriveFile.title f)))).
  { intros h0. rewrite for_f_unfold. unfold processing_notice.
    destruct traceFlag; simpl; unfold seq; simpl.
    - rewrite for_driveFiles_no_folder_done, for_driveFiles_downloaded
        by done.
      rewrite !downloaded_app. simpl. by rewrite !app_nil_r.
    - rewrite for_driveFiles_no_folder_done, for_driveFiles_downloaded
        by done.
      rewrite !downloaded_app. simpl. by rewrite !app_nil_r. }
  destruct (Hf h) as [Hdone Hdl].
  destruct (for_f _ _ _ _ _ _ _) as [h1 st]. simpl in *. subst st.
  rewrite IH by (intros f' Hf'; apply Hflat; by right).
  by rewrite Hdl, <- app_assoc.
Qed.

Lemma flat_container_downloads_all_witness :
  (∀ f, In f (ListFile (Store.world_of Drives.flaky ["id-photo"])
                (children_query "root")) →
   ∀ driveFile,
     In driveFile (ListFile (Store.world_of Drives.flaky ["id-photo"])
                     (title_query (DriveFile.title f))) →
     DriveFile.mimeType driveFile ≠ folder_mimeType)
  ∧ downloaded
      (fst (downloadAllFilesInFolder posix
              (Store.world_of Drives.flaky ["id-photo"]) 1 "out" "root"
              false []))
    = downloaded []
      ++ concat
           (map (λ f, List.filter is_regular
                        (ListFile (Store.world_of Drives.flaky ["id-photo"])
                           (title_query (DriveFile.title f))))
              (ListFile (Store.world_of Drives.flaky ["id-photo"])
                 (children_query "root"))).
Proof.
  assert (Hflat :
    ∀ f, In f (ListFile (Store.world_of Drives.flaky ["id-photo"])
                 (children_query "root")) →
    ∀ driveFile,
      In driveFile (ListFile (Store.world_of Drives.flaky ["id-photo"])
                      (title_query (DriveFile.title f))) →
      DriveFile.mimeType driveFile ≠ folder_mimeType).
  { intros f [<- | [<- | [<- | []]]] driveFile [<- | []]; discriminate. }
  split; [exact Hflat |].
  apply (flat_container_downloads_all posix
           (Store.world_of Drives.flaky ["id-photo"]) 0 "out" "root" false []
           Hflat).
Defined.

(** ** The re-query by title *)





